(** * Contact-management backend: repository and route layer

    A shallow embedding of [src/repository/contacts.py],
    [src/repository/users.py], [src/routes/contacts.py],
    [src/database/db.py] and the health check of [main.py].

    Python functions that receive a [db: Session] become computations of a
    state-and-exception monad over the session; a raised Python exception is
    the left summand.  Tables are lists of rows in storage order, so that
    [.first()], [.limit()] and [.offset()] have their SQL reading. *)

From Stdlib Require Import ZArith List String Bool Lia.
From ExtLib Require Import Structures.Monad Structures.MonadState Structures.MonadExc.
From ExtLib Require Import Data.Monads.StateMonad Data.Monads.EitherMonad.
Import ListNotations.
Import MonadNotation.
Local Open Scope string_scope.
Local Open Scope monad_scope.
Local Open Scope Z_scope.

#[local] Existing Instance Monad_stateT.

(** ** Calendar dates ([datetime.date]) *)

Record date := mkdate { year : Z; month : Z; day : Z }.

Definition date_eqb (a b : date) : bool :=
  (year a =? year b) && (month a =? month b) && (day a =? day b).

Definition is_leap (y : Z) : bool :=
  (y mod 4 =? 0) && (negb (y mod 100 =? 0) || (y mod 400 =? 0)).

Definition days_in_month (y m : Z) : Z :=
  if m =? 2 then (if is_leap y then 29 else 28)
  else if (m =? 4) || (m =? 6) || (m =? 9) || (m =? 11) then 30
  else 31.

Definition next_day (d : date) : date :=
  if day d <? days_in_month (year d) (month d)
  then mkdate (year d) (month d) (day d + 1)
  else if month d <? 12
       then mkdate (year d) (month d + 1) 1
       else mkdate (year d + 1) 1 1.

Definition MAXYEAR : Z := 9999.

Definition MINYEAR : Z := 1.

(** The calendar date [n] days after [d].  The bound on the year is checked
    where the route adds the [timedelta], in [timedelta_add]. *)
Definition add_days (n : nat) (d : date) : date := Nat.iter n next_day d.

(** ** Exceptions *)

Inductive exn : Type :=
| SQLAlchemyError (msg : string)
| HTTPException (status_code : Z) (detail : string)
| RequestValidationError (detail : string)
| TypeError (msg : string)
| AttributeError (msg : string)
| OverflowError (msg : string).

(** ** Rows and request bodies *)

Module User.
(** Modelled from the spec: the [User] table declaration is missing; its
    attributes are those of section 3 (unique id, unique email, credential
    hash, username, confirmed flag, nullable avatar URL and refresh
    token). *)
Record t := mk {
  id : Z;
  username : string;
  email : string;
  password : string;
  avatar : option string;
  refresh_token : option string;
  confirmed : bool
}.
End User.

Module Contact.
(** Modelled from the spec: the [Contact] table declaration is missing;
    its attributes are those of section 3. *)
Record t := mk {
  id : Z;
  first_name : string;
  second_name : string;
  email : string;
  phone : string;
  birth_date : date;
  user_id : Z
}.
End Contact.

Module ContactModel.
(** Modelled from the spec: the request schema is missing; its fields are
    the contact fields of section 6, which are the five [update] reads. *)
Record t := mk {
  first_name : string;
  second_name : string;
  email : string;
  phone : string;
  birth_date : date
}.
End ContactModel.

Module UserModel.
(** Modelled from the spec: the signup schema is missing; it carries the
    username, the email and the credential of section 3 and no avatar. *)
Record t := mk {
  username : string;
  email : string;
  password : string
}.
End UserModel.

(** ** The storage engine and the session *)

(** The storage engine behind the SQLAlchemy URL of the settings, which is
    not part of the sources.  The engines differ where the code passes them
    a value it does not check: a negative LIMIT or OFFSET. *)
Inductive engine : Type := PostgreSQL | SQLite.

Record database := mkdb {
  contacts : list Contact.t;
  contacts_id_seq : Z;
  users : list User.t;
  users_id_seq : Z;
  dialect : engine
}.

(** A session is the stored data together with the state of the connection:
    [fault = Some msg] is a driver or connectivity failure, on which every
    statement raises [SQLAlchemyError msg]. *)
Record Session := mksession { store : database; fault : option string }.

Definition connected (d : database) : Session := mksession d None.

Definition Repo : Type -> Type := stateT Session (sum exn).

Definition run {A} (c : Repo A) (db : Session) : exn + (A * Session) :=
  runStateT c db.

(** Every statement first needs a working connection. *)
Definition execute : Repo database :=
  db <- get ;;
  match fault db with
  | Some msg => raise (SQLAlchemyError msg)
  | None => ret (store db)
  end.

Definition commit (d : database) : Repo unit :=
  db <- get ;;
  match fault db with
  | Some msg => raise (SQLAlchemyError msg)
  | None => put (mksession d (fault db))
  end.

(** [db.query(Contact).filter(p)]: the rows of the table that satisfy [p]. *)
Definition query_Contact (p : Contact.t -> bool) : Repo (list Contact.t) :=
  d <- execute ;;
  ret (filter p (contacts d)).

Definition query_User (p : User.t -> bool) : Repo (list User.t) :=
  d <- execute ;;
  ret (filter p (users d)).

(** [.first()] *)
Definition first {A} (rows : list A) : option A := hd_error rows.

(** The integers an engine takes as LIMIT or OFFSET: 64-bit signed. *)
Definition INT64_LIMIT : Z := 9223372036854775808.

Definition in_int64 (n : Z) : bool := (- INT64_LIMIT <=? n) && (n <? INT64_LIMIT).

(** [.limit(limit).offset(offset).all()].  The code hands both integers to
    the engine unchecked.  Within the 64-bit range and not negative, SQL
    skips [offset] rows and then keeps [limit] rows.  Outside the range both
    engines raise, PostgreSQL a [DataError] (a [SQLAlchemyError]) and the
    SQLite driver an [OverflowError].  A negative value is refused by
    PostgreSQL, while SQLite reads a negative LIMIT as no limit and a
    negative OFFSET as zero. *)
Definition limit_offset {A} (limit offset : Z) (rows : list A) : Repo (list A) :=
  db <- get ;;
  match dialect (store db) with
  | PostgreSQL =>
      if negb (in_int64 limit && in_int64 offset)
      then raise (SQLAlchemyError "DataError: bigint out of range")
      else if limit <? 0 then raise (SQLAlchemyError "LIMIT must not be negative")
      else if offset <? 0 then raise (SQLAlchemyError "OFFSET must not be negative")
      else ret (firstn (Z.to_nat limit) (skipn (Z.to_nat offset) rows))
  | SQLite =>
      if negb (in_int64 limit && in_int64 offset)
      then raise (OverflowError "Python int too large to convert to SQLite INTEGER")
      else
        let skipped := if offset <? 0 then rows else skipn (Z.to_nat offset) rows in
        ret (if limit <? 0 then skipped else firstn (Z.to_nat limit) skipped)
  end.

(** The ORM statements a commit flushes.  UPDATE and DELETE address the row
    by its primary key.  The id of a new row and the place of a row after an
    UPDATE are the engine's choice, which the sources do not fix: the model
    takes the next value of an id sequence and rewrites the row in place,
    and the statements about [create] and [update] rely only on the new id
    being fresh and on which rows are stored, not on their order. *)
Definition set_contacts (rows : list Contact.t) (seq : Z) (d : database) : database :=
  mkdb rows seq (users d) (users_id_seq d) (dialect d).

Definition set_users (rows : list User.t) (seq : Z) (d : database) : database :=
  mkdb (contacts d) (contacts_id_seq d) rows seq (dialect d).

Definition insert_Contact (pending : Z -> Contact.t) : Repo Contact.t :=
  d <- execute ;;
  let new_id := contacts_id_seq d + 1 in
  let row := pending new_id in
  commit (set_contacts (contacts d ++ [row]) new_id d) ;;
  ret row.

Definition update_Contact (row : Contact.t) : Repo unit :=
  d <- execute ;;
  commit (set_contacts
            (map (fun r => if Contact.id r =? Contact.id row then row else r) (contacts d))
            (contacts_id_seq d) d).

Definition delete_Contact (row : Contact.t) : Repo unit :=
  d <- execute ;;
  commit (set_contacts
            (filter (fun r => negb (Contact.id r =? Contact.id row)) (contacts d))
            (contacts_id_seq d) d).

(** Modelled from the spec: the [User] table declaration is missing; section
    3 makes the email unique, so the engine refuses a second row with a
    stored email (an [IntegrityError], which is a [SQLAlchemyError]). *)
Definition insert_User (pending : Z -> User.t) : Repo User.t :=
  d <- execute ;;
  let new_id := users_id_seq d + 1 in
  let row := pending new_id in
  if existsb (fun u => String.eqb (User.email u) (User.email row)) (users d)
  then raise (SQLAlchemyError "IntegrityError: duplicate key value violates unique constraint")
  else (commit (set_users (users d ++ [row]) new_id d) ;; ret row).

Definition update_User (row : User.t) : Repo unit :=
  d <- execute ;;
  commit (set_users
            (map (fun r => if User.id r =? User.id row then row else r) (users d))
            (users_id_seq d) d).

(** ** [src/repository/contacts.py] *)

Module repository_contacts.

Definition owned_by (user : User.t) (c : Contact.t) : bool :=
  Contact.user_id c =? User.id user.

Definition get_contacts (limit offset : Z) (user : User.t) : Repo (list Contact.t) :=
  rows <- query_Contact (fun c => owned_by user c) ;;
  contacts <- limit_offset limit offset rows ;;
  ret contacts.

Definition get_contact_by_id (contact_id : Z) (user : User.t) : Repo (option Contact.t) :=
  rows <- query_Contact (fun c => (Contact.id c =? contact_id) && owned_by user c) ;;
  ret (first rows).

Definition get_contact_by_email (email : string) (user : User.t) : Repo (option Contact.t) :=
  rows <- query_Contact (fun c => String.eqb (Contact.email c) email && owned_by user c) ;;
  ret (first rows).

Definition get_contact_by_phone (phone : string) (user : User.t) : Repo (option Contact.t) :=
  rows <- query_Contact (fun c => String.eqb (Contact.phone c) phone && owned_by user c) ;;
  ret (first rows).

Definition get_contact_by_first_name (first_name : string) (user : User.t)
  : Repo (option Contact.t) :=
  rows <- query_Contact (fun c =>
            String.eqb (Contact.first_name c) first_name && owned_by user c) ;;
  ret (first rows).

Definition get_contact_by_second_name (second_name : string) (user : User.t)
  : Repo (option Contact.t) :=
  rows <- query_Contact (fun c =>
            String.eqb (Contact.second_name c) second_name && owned_by user c) ;;
  ret (first rows).

Definition get_contact_by_birth_date (birth_date : date) (user : User.t)
  : Repo (option Contact.t) :=
  rows <- query_Contact (fun c =>
            date_eqb (Contact.birth_date c) birth_date && owned_by user c) ;;
  ret (first rows).

(** The [Contact] built from the unpacked body and [user=current_user],
    waiting for its id. *)
Definition new_Contact (body : ContactModel.t) (current_user : User.t) (id : Z) : Contact.t :=
  Contact.mk id
    (ContactModel.first_name body) (ContactModel.second_name body)
    (ContactModel.email body) (ContactModel.phone body)
    (ContactModel.birth_date body) (User.id current_user).

Definition create (body : ContactModel.t) (current_user : User.t) : Repo Contact.t :=
  contact <- insert_Contact (new_Contact body current_user) ;;
  ret contact.

(** The five assignments of [update]. *)
Definition assign_fields (contact : Contact.t) (body : ContactModel.t) : Contact.t :=
  Contact.mk (Contact.id contact)
    (ContactModel.first_name body) (ContactModel.second_name body)
    (ContactModel.email body) (ContactModel.phone body)
    (ContactModel.birth_date body) (Contact.user_id contact).

Definition update (contact_id : Z) (body : ContactModel.t) (user : User.t)
  : Repo (option Contact.t) :=
  contact <- get_contact_by_id contact_id user ;;
  match contact with
  | Some c =>
      let c' := assign_fields c body in
      update_Contact c' ;;
      ret (Some c')
  | None => ret None
  end.

Definition remove (contact_id : Z) (user : User.t) : Repo (option Contact.t) :=
  contact <- get_contact_by_id contact_id user ;;
  match contact with
  | Some c => delete_Contact c ;; ret (Some c)
  | None => ret None
  end.

(** SQL [BETWEEN], inclusive at both ends. *)
Definition between (x lo hi : Z) : bool := (lo <=? x) && (x <=? hi).

(** The function has no [user] parameter and its filter has no owner
    condition. *)
Definition get_contacts_birthday (start_date end_date : date) : Repo (list Contact.t) :=
  let birth_day c := day (Contact.birth_date c) in
  let birth_month c := month (Contact.birth_date c) in
  contacts <- query_Contact (fun c =>
                (birth_month c =? month start_date)
                && between (birth_day c) (day start_date) (day end_date)) ;;
  ret contacts.

End repository_contacts.

(** ** [src/repository/users.py] *)

Module repository_users.
Section Gravatar.

(** [Gravatar(email).get_image()] of the libgravatar package: a URL
    computed from the email. *)
Variable get_image : string -> string.

Definition get_user_by_email (email : string) : Repo (option User.t) :=
  rows <- query_User (fun u => String.eqb (User.email u) email) ;;
  ret (first rows).

(** The [User] built from the unpacked body and [avatar=grav.get_image()];
    the remaining columns take their defaults. *)
Definition new_User (body : UserModel.t) (avatar : string) (id : Z) : User.t :=
  User.mk id (UserModel.username body) (UserModel.email body)
    (UserModel.password body) (Some avatar) None false.

Definition create_user (body : UserModel.t) : Repo User.t :=
  let grav := get_image (UserModel.email body) in
  new_user <- insert_User (new_User body grav) ;;
  ret new_user.


Definition set_confirmed (user : User.t) (flag : bool) : User.t :=
  User.mk (User.id user) (User.username user) (User.email user) (User.password user)
    (User.avatar user) (User.refresh_token user) flag.

Definition set_avatar (user : User.t) (url : string) : User.t :=
  User.mk (User.id user) (User.username user) (User.email user) (User.password user)
    (Some url) (User.refresh_token user) (User.confirmed user).


(** [user] is used without a test; on [None] the attribute assignment
    raises. *)
Definition confirmed_email (email : string) : Repo unit :=
  user <- get_user_by_email email ;;
  match user with
  | Some u => update_User (set_confirmed u true)
  | None => raise (AttributeError "'NoneType' object has no attribute 'confirmed'")
  end.

Definition update_avatar (email : string) (url : string) : Repo User.t :=
  user <- get_user_by_email email ;;
  match user with
  | Some u =>
      let u' := set_avatar u url in
      update_User u' ;;
      ret u'
  | None => raise (AttributeError "'NoneType' object has no attribute 'avatar'")
  end.

End Gravatar.
End repository_users.

(** ** [src/database/db.py] *)

Module db.

(** The session dependency around an endpoint: a [SQLAlchemyError] leaving
    the endpoint becomes [HTTPException(400)] with the error text as
    detail, anything else passes.  The final [db.close()] releases the
    connection and leaves the stored data as they are. *)
Definition get_db {A} (endpoint : Repo A) : Repo A :=
  catch endpoint
    (fun err =>
       match err with
       | SQLAlchemyError msg => raise (HTTPException 400 msg)
       | other => raise other
       end).

End db.

(** ** [src/routes/contacts.py]

    [current_user] is what [auth_service.get_current_user] supplies; the
    rate limiter of the list route is outside the model. *)

Module routes_contacts.

Definition HTTP_404_NOT_FOUND : Z := 404.

Definition or_404 {A} (found : option A) : Repo A :=
  match found with
  | Some x => ret x
  | None => raise (HTTPException HTTP_404_NOT_FOUND "Not Found")
  end.

(** [Path(ge=1)] *)
Definition Path_ge_1 (contact_id : Z) : Repo Z :=
  if contact_id <? 1 then raise (RequestValidationError "ensure this value is greater than or equal to 1")
  else ret contact_id.

(** [Query(10, le=500)] *)
Definition Query_10_le_500 (limit : option Z) : Repo Z :=
  match limit with
  | None => ret 10
  | Some l =>
      if 500 <? l then raise (RequestValidationError "ensure this value is less than or equal to 500")
      else ret l
  end.

Definition get_contacts (limit offset : option Z) (current_user : User.t)
  : Repo (list Contact.t) :=
  limit <- Query_10_le_500 limit ;;
  let offset := match offset with Some o => o | None => 0 end in
  contacts <- repository_contacts.get_contacts limit offset current_user ;;
  ret contacts.

Definition get_contact (contact_id : Z) (current_user : User.t) : Repo Contact.t :=
  contact_id <- Path_ge_1 contact_id ;;
  contact <- repository_contacts.get_contact_by_id contact_id current_user ;;
  or_404 contact.

Definition get_contact_by_email (email : string) (current_user : User.t) : Repo Contact.t :=
  contact <- repository_contacts.get_contact_by_email email current_user ;;
  or_404 contact.

Definition get_contact_by_phone (phone : string) (current_user : User.t) : Repo Contact.t :=
  contact <- repository_contacts.get_contact_by_phone phone current_user ;;
  or_404 contact.

Definition get_contact_by_first_name (first_name : string) (current_user : User.t)
  : Repo Contact.t :=
  contact <- repository_contacts.get_contact_by_first_name first_name current_user ;;
  or_404 contact.

Definition get_contact_by_second_name (second_name : string) (current_user : User.t)
  : Repo Contact.t :=
  contact <- repository_contacts.get_contact_by_second_name second_name current_user ;;
  or_404 contact.

Definition get_contact_by_birth_date (birth_date : date) (current_user : User.t)
  : Repo Contact.t :=
  contact <- repository_contacts.get_contact_by_birth_date birth_date current_user ;;
  or_404 contact.

Definition create_contact (body : ContactModel.t) (current_user : User.t) : Repo Contact.t :=
  contact <- repository_contacts.create body current_user ;;
  ret contact.

Definition update_contact (body : ContactModel.t) (contact_id : Z) (current_user : User.t)
  : Repo Contact.t :=
  contact_id <- Path_ge_1 contact_id ;;
  contact <- repository_contacts.update contact_id body current_user ;;
  or_404 contact.

Definition remove_contact (contact_id : Z) (current_user : User.t) : Repo Contact.t :=
  contact_id <- Path_ge_1 contact_id ;;
  contact <- repository_contacts.remove contact_id current_user ;;
  or_404 contact.

(** Positional arguments of a call, as the route passes them. *)
Inductive arg : Type :=
| ArgDate (d : date)
| ArgUser (u : User.t)
| ArgSession.

(** A call of [repository_contacts.get_contacts_birthday], whose signature
    is [(start_date, end_date, db)]: any other number of positional
    arguments is a [TypeError].  The route never passes three arguments;
    that branch only binds two dates and the session. *)
Definition call_get_contacts_birthday (args : list arg) : Repo (list Contact.t) :=
  match args with
  | [a1; a2; a3] =>
      match a1, a2, a3 with
      | ArgDate start_date, ArgDate end_date, ArgSession =>
          repository_contacts.get_contacts_birthday start_date end_date
      | _, _, _ => raise (AttributeError "object has no attribute of the expected kind")
      end
  | [_; _; _; _] =>
      raise (TypeError
               "get_contacts_birthday() takes 3 positional arguments but 4 were given")
  | _ => raise (TypeError "get_contacts_birthday() got a wrong number of arguments")
  end.

Definition timedelta_add (d : date) (days : nat) : Repo date :=
  let r := add_days days d in
  if MAXYEAR <? year r then raise (OverflowError "date value out of range")
  else ret r.

(** [today] is [datetime.now().date()]. *)
Definition get_birthday_list (today : date) (current_user : User.t) : Repo (list Contact.t) :=
  let start_date := today in
  let delta := 7%nat in
  end_date <- timedelta_add start_date delta ;;
  contacts <- call_get_contacts_birthday
                [ArgDate start_date; ArgDate end_date; ArgUser current_user; ArgSession] ;;
  ret contacts.

End routes_contacts.

(** ** [main.py] *)

Module main.

(** [db.execute(text("SELECT 1")).fetchone()] *)
Definition select_1 : Repo (option Z) :=
  _ <- execute ;;
  ret (Some 1).

Definition healthchecker : Repo string :=
  catch
    (result <- select_1 ;;
     match result with
     | None => raise (HTTPException 500 "Database is not configured correctly")
     | Some _ => ret "Welcome to FastAPI!"
     end)
    (fun e => raise (HTTPException 500 "Error connecting to the database")).

End main.

(** ** The response of the framework

    An endpoint runs inside the [get_db] dependency.  A returned value is
    answered with the route's success status, an [HTTPException] with its
    own status, a validation error with 422 and any other exception with
    500. *)

Definition status_of {A} (success : Z) (outcome : exn + (A * Session)) : Z :=
  match outcome with
  | inr _ => success
  | inl (HTTPException status_code _) => status_code
  | inl (RequestValidationError _) => 422
  | inl _ => 500
  end.

Definition serve {A} (success : Z) (endpoint : Repo A) (s : Session) : Z :=
  status_of success (run (db.get_db endpoint) s).

(** ** The routing table

    The requests of the contact router and the health check, each with the
    success status of its decorator.  [today] is the clock and
    [current_user] the identity supplied by the authentication service. *)

Inductive request : Type :=
| GET_contacts (limit offset : option Z)
| GET_contact (contact_id : Z)
| GET_contact_by_email (email : string)
| GET_contact_by_phone (phone : string)
| GET_contact_by_first_name (first_name : string)
| GET_contact_by_second_name (second_name : string)
| GET_contact_by_birth_date (birth_date : date)
| POST_contact (body : ContactModel.t)
| PUT_contact (body : ContactModel.t) (contact_id : Z)
| DELETE_contact (contact_id : Z)
| GET_birthday_list
| GET_healthchecker.

Definition HTTP_200_OK : Z := 200.
Definition HTTP_201_CREATED : Z := 201.
Definition HTTP_204_NO_CONTENT : Z := 204.

Definition handle (today : date) (current_user : User.t) (r : request) (s : Session) : Z :=
  match r with
  | GET_contacts limit offset =>
      serve HTTP_200_OK (routes_contacts.get_contacts limit offset current_user) s
  | GET_contact contact_id =>
      serve HTTP_200_OK (routes_contacts.get_contact contact_id current_user) s
  | GET_contact_by_email email =>
      serve HTTP_200_OK (routes_contacts.get_contact_by_email email current_user) s
  | GET_contact_by_phone phone =>
      serve HTTP_200_OK (routes_contacts.get_contact_by_phone phone current_user) s
  | GET_contact_by_first_name first_name =>
      serve HTTP_200_OK (routes_contacts.get_contact_by_first_name first_name current_user) s
  | GET_contact_by_second_name second_name =>
      serve HTTP_200_OK (routes_contacts.get_contact_by_second_name second_name current_user) s
  | GET_contact_by_birth_date birth_date =>
      serve HTTP_200_OK (routes_contacts.get_contact_by_birth_date birth_date current_user) s
  | POST_contact body =>
      serve HTTP_201_CREATED (routes_contacts.create_contact body current_user) s
  | PUT_contact body contact_id =>
      serve HTTP_200_OK (routes_contacts.update_contact body contact_id current_user) s
  | DELETE_contact contact_id =>
      serve HTTP_204_NO_CONTENT (routes_contacts.remove_contact contact_id current_user) s
  | GET_birthday_list =>
      serve HTTP_200_OK (routes_contacts.get_birthday_list today current_user) s
  | GET_healthchecker =>
      serve HTTP_200_OK main.healthchecker s
  end.






(** ** Invariant of the contact table and sample data *)

(** The id sequence is ahead of every stored id, and ids are unique (the
    primary key). *)
Definition contacts_wf (d : database) : Prop :=
  Forall (fun c => Contact.id c <= contacts_id_seq d) (contacts d)
  /\ NoDup (map Contact.id (contacts d)).

Definition empty_db : database := mkdb [] 0 [] 0 PostgreSQL.

Definition alice : User.t :=
  User.mk 1 "alice" "alice@example.com" "hash-a" None None true.
Definition bob : User.t :=
  User.mk 2 "bob" "bob@example.com" "hash-b" None None false.

Definition contact_feb01 : Contact.t :=
  Contact.mk 1 "Ann" "Lee" "ann@example.com" "111" (mkdate 2000 2 1) 1.
Definition contact_feb05 : Contact.t :=
  Contact.mk 2 "Ben" "Ray" "ben@example.com" "222" (mkdate 2000 2 5) 1.
Definition contact_feb20 : Contact.t :=
  Contact.mk 3 "Cy" "Fox" "cy@example.com" "333" (mkdate 2000 2 20) 1.

Definition sample_db : database :=
  mkdb [contact_feb01; contact_feb05; contact_feb20] 3 [alice; bob] 2 PostgreSQL.

Definition sample_body : ContactModel.t :=
  ContactModel.mk "A" "B" "a@b.com" "123" (mkdate 1990 5 5).

(** ** Notions used to state further properties *)




(** The dates [datetime.date] can hold. *)
Definition valid_date (d : date) : Prop :=
  MINYEAR <= year d <= MAXYEAR
  /\ 1 <= month d <= 12
  /\ 1 <= day d <= days_in_month (year d) (month d).

(** The unique columns of the user table: id and email. *)
Definition users_wf (d : database) : Prop :=
  NoDup (map User.id (users d)) /\ NoDup (map User.email (users d)).

(** A store in which [alice] owns 501 contacts. *)
Definition crowd (n : nat) : list Contact.t :=
  map (fun i => Contact.mk (Z.of_nat i) "N" "N" "n@example.com" "0" (mkdate 2000 1 1) 1)
      (seq 1 n).

Definition crowded_db (e : engine) : database :=
  mkdb (crowd 501) 501 [alice] 1 e.

(** The body of [healthchecker] around any outcome of its statement
    [db.execute(text("SELECT 1")).fetchone()]. *)
Definition healthchecker_on (fetchone : Repo (option Z)) : Repo string :=
  catch
    (result <- fetchone ;;
     match result with
     | None => raise (HTTPException 500 "Database is not configured correctly")
     | Some _ => ret "Welcome to FastAPI!"
     end)
    (fun e => raise (HTTPException 500 "Error connecting to the database")).

(** * Properties *)

(** ** Running statements on a connected session *)

Lemma run_query_Contact p d :
  run (query_Contact p) (connected d) = inr (filter p (contacts d), connected d).
Proof. reflexivity. Qed.

Lemma run_get_contact_by_id contact_id user d :
  run (repository_contacts.get_contact_by_id contact_id user) (connected d)
  = inr (first (filter (fun c => (Contact.id c =? contact_id)
                                 && repository_contacts.owned_by user c) (contacts d)),
         connected d).
Proof. reflexivity. Qed.

Lemma first_filter_Some {A} (p : A -> bool) rows x :
  first (filter p rows) = Some x -> In x rows /\ p x = true.
Proof.
  unfold first. intros H.
  assert (Hin : In x (filter p rows)).
  { destruct (filter p rows); simpl in H; [discriminate | inversion H; now left]. }
  now apply filter_In in Hin.
Qed.

Lemma first_filter_None {A} (p : A -> bool) rows :
  first (filter p rows) = None <-> forall x, In x rows -> p x = false.
Proof.
  unfold first. split.
  - intros H x Hx. destruct (p x) eqn:E; [|reflexivity].
    assert (Hin : In x (filter p rows)) by (apply filter_In; auto).
    destruct (filter p rows); [contradiction | discriminate].
  - intros H. destruct (filter p rows) as [|y l] eqn:E; [reflexivity|].
    assert (Hin : In y (filter p rows)) by (rewrite E; now left).
    apply filter_In in Hin. destruct Hin as [Hy Hp].
    rewrite (H y Hy) in Hp. discriminate.
Qed.

Lemma filter_none {A} (p : A -> bool) rows :
  (forall x, In x rows -> p x = false) -> filter p rows = [].
Proof.
  induction rows as [|r rows IH]; intros H; [reflexivity|].
  cbn. rewrite (H r (or_introl eq_refl)). apply IH. intros x Hx. apply H. now right.
Qed.

Lemma first_filter_replace {A} (key : A -> Z) (p : A -> bool) (x x' : A) rows :
  key x' = key x ->
  p x' = true ->
  first (filter p rows) = Some x ->
  first (filter p (map (fun r => if key r =? key x' then x' else r) rows)) = Some x'.
Proof.
  intros Hkey Hp. induction rows as [|r rows IH]; [discriminate|].
  cbn. destruct (Z.eqb_spec (key r) (key x')) as [E|E].
  - rewrite Hp. intros _. reflexivity.
  - destruct (p r) eqn:Hr.
    + cbn. intros H. inversion H; subst. congruence.
    + exact IH.
Qed.

(** A repository function that branches on the first row found. *)
Ltac run_first H :=
  unfold run; cbn; change (hd_error ?l) with (first l); rewrite H; reflexivity.

Lemma run_update_found contact_id body user d c :
  first (filter (fun c => (Contact.id c =? contact_id)
                          && repository_contacts.owned_by user c) (contacts d)) = Some c ->
  run (repository_contacts.update contact_id body user) (connected d)
  = inr (Some (repository_contacts.assign_fields c body),
         connected (set_contacts
                      (map (fun r => if Contact.id r =? Contact.id c
                                     then repository_contacts.assign_fields c body else r)
                           (contacts d))
                      (contacts_id_seq d) d)).
Proof.
  intros H. unfold repository_contacts.update. run_first H.
Qed.

Lemma run_update_absent contact_id body user d :
  first (filter (fun c => (Contact.id c =? contact_id)
                          && repository_contacts.owned_by user c) (contacts d)) = None ->
  run (repository_contacts.update contact_id body user) (connected d)
  = inr (None, connected d).
Proof.
  intros H. unfold repository_contacts.update. run_first H.
Qed.

Lemma run_remove_found contact_id user d c :
  first (filter (fun c => (Contact.id c =? contact_id)
                          && repository_contacts.owned_by user c) (contacts d)) = Some c ->
  run (repository_contacts.remove contact_id user) (connected d)
  = inr (Some c,
         connected (set_contacts
                      (filter (fun r => negb (Contact.id r =? Contact.id c)) (contacts d))
                      (contacts_id_seq d) d)).
Proof.
  intros H. unfold repository_contacts.remove. run_first H.
Qed.

Lemma run_remove_absent contact_id user d :
  first (filter (fun c => (Contact.id c =? contact_id)
                          && repository_contacts.owned_by user c) (contacts d)) = None ->
  run (repository_contacts.remove contact_id user) (connected d) = inr (None, connected d).
Proof.
  intros H. unfold repository_contacts.remove. run_first H.
Qed.

(** ** Dates *)

Example add_days_end_of_february :
  add_days 7 (mkdate 2024 2 25) = mkdate 2024 3 3
  /\ add_days 7 (mkdate 2023 2 25) = mkdate 2023 3 4
  /\ add_days 7 (mkdate 2024 12 28) = mkdate 2025 1 4.
Proof. repeat split. Qed.

(** ** Birthday range *)

(** C2: the birthday-range query returns exactly the stored contacts whose
    birth month is the month of [start_date] and whose birth day lies in
    [[start_date.day, end_date.day]], whatever the birth year; when
    [end_date.day < start_date.day] it returns nothing. *)
Theorem get_contacts_birthday_same_month_window :
  forall (start_date end_date : date) (d : database),
  exists rows,
    run (repository_contacts.get_contacts_birthday start_date end_date) (connected d)
    = inr (rows, connected d)
    /\ (forall c, In c rows <->
          In c (contacts d)
          /\ month (Contact.birth_date c) = month start_date
          /\ day start_date <= day (Contact.birth_date c) <= day end_date)
    /\ (day end_date < day start_date -> rows = []).
Proof.
  intros start_date end_date d. eexists. split; [reflexivity|].
  assert (Hchar : forall c,
    ((month (Contact.birth_date c) =? month start_date)
     && repository_contacts.between (day (Contact.birth_date c)) (day start_date) (day end_date))
    = true <->
    month (Contact.birth_date c) = month start_date
    /\ day start_date <= day (Contact.birth_date c) <= day end_date).
  { intros c. unfold repository_contacts.between.
    rewrite !andb_true_iff, Z.eqb_eq, !Z.leb_le. tauto. }
  split.
  - intros c. rewrite filter_In, Hchar. tauto.
  - intros Hlt.
    match goal with
    | |- ?rows = [] => destruct rows as [|c l] eqn:E; [reflexivity|]
    end.
    assert (Hin : In c (c :: l)) by now left.
    rewrite <- E in Hin. apply filter_In in Hin. destruct Hin as [_ Hp].
    apply Hchar in Hp. lia.
Qed.

(** The example of section 8: birthdays on 2000-02-01, 2000-02-05 and
    2000-02-20, window 2024-02-01 to 2024-02-10. *)
Example birthday_window_february :
  run (repository_contacts.get_contacts_birthday (mkdate 2024 2 1) (mkdate 2024 2 10))
      (connected sample_db)
  = inr ([contact_feb01; contact_feb05], connected sample_db).
Proof. reflexivity. Qed.

Example birthday_window_across_months :
  run (repository_contacts.get_contacts_birthday (mkdate 2024 1 28) (mkdate 2024 2 14))
      (connected sample_db)
  = inr ([], connected sample_db).
Proof. reflexivity. Qed.

(** ** Remove *)

(** C5: when a contact with the given id and owner exists, the first
    [remove] returns that record and the store keeps exactly the rows with
    another id; a second [remove] with the same id and owner returns absent
    and leaves the store as it is. *)
Theorem remove_twice :
  forall (contact_id : Z) (user : User.t) (d : database) (c : Contact.t),
    run (repository_contacts.get_contact_by_id contact_id user) (connected d)
    = inr (Some c, connected d) ->
    exists d',
      run (repository_contacts.remove contact_id user) (connected d)
      = inr (Some c, connected d')
      /\ ~ In c (contacts d')
      /\ (forall r, In r (contacts d') <-> In r (contacts d) /\ Contact.id r <> contact_id)
      /\ run (repository_contacts.get_contact_by_id contact_id user) (connected d')
         = inr (None, connected d')
      /\ run (repository_contacts.remove contact_id user) (connected d')
         = inr (None, connected d').
Proof.
  intros contact_id user d c Hget.
  rewrite run_get_contact_by_id in Hget.
  assert (Hfirst : first (filter (fun c => (Contact.id c =? contact_id)
                     && repository_contacts.owned_by user c) (contacts d)) = Some c)
    by congruence.
  clear Hget.
  pose proof (first_filter_Some _ _ _ Hfirst) as [Hin Hp].
  apply andb_true_iff in Hp. destruct Hp as [Hid _]. apply Z.eqb_eq in Hid.
  eexists. split; [apply run_remove_found; exact Hfirst|].
  assert (Hmem : forall r,
    In r (filter (fun r => negb (Contact.id r =? Contact.id c)) (contacts d))
    <-> In r (contacts d) /\ Contact.id r <> contact_id).
  { intros r. rewrite filter_In, negb_true_iff, Z.eqb_neq, Hid. tauto. }
  assert (Hgone : first (filter (fun c0 => (Contact.id c0 =? contact_id)
                     && repository_contacts.owned_by user c0)
                   (filter (fun r => negb (Contact.id r =? Contact.id c)) (contacts d)))
                  = None).
  { apply first_filter_None. intros x Hx. apply Hmem in Hx. destruct Hx as [_ Hne].
    apply Z.eqb_neq in Hne. now rewrite Hne. }
  split; [|split; [|split]].
  - cbn [contacts set_contacts]. intros Hc. apply Hmem in Hc. tauto.
  - cbn [contacts set_contacts]. exact Hmem.
  - rewrite run_get_contact_by_id. cbn [contacts set_contacts]. now rewrite Hgone.
  - apply run_remove_absent. cbn [contacts set_contacts]. exact Hgone.
Qed.

Lemma remove_twice_witness :
  run (repository_contacts.get_contact_by_id 2 alice) (connected sample_db)
  = inr (Some contact_feb05, connected sample_db)
  /\ exists d',
      run (repository_contacts.remove 2 alice) (connected sample_db)
      = inr (Some contact_feb05, connected d')
      /\ ~ In contact_feb05 (contacts d')
      /\ (forall r, In r (contacts d') <-> In r (contacts sample_db) /\ Contact.id r <> 2)
      /\ run (repository_contacts.get_contact_by_id 2 alice) (connected d')
         = inr (None, connected d')
      /\ run (repository_contacts.remove 2 alice) (connected d')
         = inr (None, connected d').
Proof.
  split; [reflexivity|].
  apply (remove_twice 2 alice sample_db contact_feb05). reflexivity.
Defined.

(** ** Create, and the invariant of the contact table *)

Lemma contacts_wf_empty : contacts_wf empty_db.
Proof. split; constructor. Qed.

Lemma run_create body current_user d :
  run (repository_contacts.create body current_user) (connected d)
  = inr (repository_contacts.new_Contact body current_user (contacts_id_seq d + 1),
         connected (set_contacts
                      (contacts d
                       ++ [repository_contacts.new_Contact body current_user
                             (contacts_id_seq d + 1)])
                      (contacts_id_seq d + 1) d)).
Proof. reflexivity. Qed.


(** C7: on a store that satisfies the table invariant, [create] followed by
    [get_contact_by_id] on the id of the created record, with the same
    owner, returns that record; its five contact fields are those given to
    [create] and its owning user id is the owner's id. *)
Theorem create_then_get_contact_by_id :
  forall (body : ContactModel.t) (owner : User.t) (d : database),
    contacts_wf d ->
    exists c d',
      run (repository_contacts.create body owner) (connected d) = inr (c, connected d')
      /\ run (repository_contacts.get_contact_by_id (Contact.id c) owner) (connected d')
         = inr (Some c, connected d')
      /\ Contact.first_name c = ContactModel.first_name body
      /\ Contact.second_name c = ContactModel.second_name body
      /\ Contact.email c = ContactModel.email body
      /\ Contact.phone c = ContactModel.phone body
      /\ Contact.birth_date c = ContactModel.birth_date body
      /\ Contact.user_id c = User.id owner.
Proof.
  intros body owner d [Hle _].
  eexists. eexists. split; [apply run_create|].
  split; [|repeat split].
  rewrite run_get_contact_by_id. cbn [contacts set_contacts Contact.id
    repository_contacts.new_Contact].
  rewrite filter_app.
  replace (filter _ (contacts d)) with (@nil Contact.t).
  - cbn. unfold repository_contacts.owned_by. cbn.
    rewrite !Z.eqb_refl. reflexivity.
  - symmetry. apply filter_none. intros x Hx.
    rewrite Forall_forall in Hle. specialize (Hle x Hx).
    apply andb_false_iff. left. apply Z.eqb_neq. lia.
Qed.

Lemma create_then_get_contact_by_id_witness :
  contacts_wf sample_db
  /\ exists c d',
      run (repository_contacts.create sample_body bob) (connected sample_db)
      = inr (c, connected d')
      /\ run (repository_contacts.get_contact_by_id (Contact.id c) bob) (connected d')
         = inr (Some c, connected d')
      /\ Contact.first_name c = ContactModel.first_name sample_body
      /\ Contact.second_name c = ContactModel.second_name sample_body
      /\ Contact.email c = ContactModel.email sample_body
      /\ Contact.phone c = ContactModel.phone sample_body
      /\ Contact.birth_date c = ContactModel.birth_date sample_body
      /\ Contact.user_id c = User.id bob.
Proof.
  assert (Hwf : contacts_wf sample_db).
  { split.
    - repeat constructor; cbn; lia.
    - cbn. repeat constructor; cbn; intuition lia. }
  split; [exact Hwf|].
  apply (create_then_get_contact_by_id sample_body bob sample_db Hwf).
Defined.

Lemma connected_inj d d' : connected d = connected d' -> d = d'.
Proof. intros H. now inversion H. Qed.




(** Under the table invariant a lookup by id cannot reach a contact of
    another user: the id identifies one row, and that row is not owned by
    the requester. *)
Lemma get_contact_by_id_foreign (user : User.t) (d : database) (c : Contact.t) :
  In c (contacts d) ->
  Contact.user_id c <> User.id user ->
  contacts_wf d ->
  run (repository_contacts.get_contact_by_id (Contact.id c) user) (connected d)
  = inr (None, connected d).
Proof.
  intros Hin Hforeign [_ Hnd].
  rewrite run_get_contact_by_id. f_equal. f_equal.
  apply first_filter_None. intros x Hx.
  destruct (Z.eqb_spec (Contact.id x) (Contact.id c)) as [E|E]; [|reflexivity].
  cbn. unfold repository_contacts.owned_by. apply Z.eqb_neq.
  assert (x = c); [|congruence].
  clear Hforeign. induction (contacts d) as [|r rows IH]; [contradiction|].
  cbn in Hnd. inversion Hnd as [|? ? Hnotin Hnd']; subst.
  destruct Hx as [->|Hx], Hin as [->|Hin]; auto.
  - exfalso. apply Hnotin. rewrite E. now apply in_map.
  - exfalso. apply Hnotin. rewrite <- E. now apply in_map.
Qed.

(** ** Owner scoping *)

Lemma run_lookup (p : Contact.t -> bool) d :
  run (rows <- query_Contact p ;; ret (first rows)) (connected d)
  = inr (first (filter p (contacts d)), connected d).
Proof. reflexivity. Qed.

Lemma run_bind {A B} (a : Repo A) (f : A -> Repo B) s :
  run (x <- a ;; f x) s
  = match run a s with
    | inl e => inl e
    | inr (x, s') => run (f x) s'
    end.
Proof.
  unfold run. cbn. destruct (runStateT a s) as [e|[x s']]; reflexivity.
Qed.

Lemma In_firstn {A} n (rows : list A) x : In x (firstn n rows) -> In x rows.
Proof.
  intros H. rewrite <- (firstn_skipn n rows). apply in_or_app. now left.
Qed.

Lemma In_skipn {A} n (rows : list A) x : In x (skipn n rows) -> In x rows.
Proof.
  intros H. rewrite <- (firstn_skipn n rows). apply in_or_app. now right.
Qed.

Lemma In_firstn_skipn {A} n m (rows : list A) x :
  In x (firstn n (skipn m rows)) -> In x rows.
Proof. intros H. now apply In_firstn, In_skipn in H. Qed.

(** The rows a page holds, where the engine returns one. *)
Lemma run_limit_offset {A} (limit offset : Z) (rows : list A) s :
  run (limit_offset limit offset rows) s
  = match dialect (store s) with
    | PostgreSQL =>
        if negb (in_int64 limit && in_int64 offset)
        then inl (SQLAlchemyError "DataError: bigint out of range")
        else if limit <? 0 then inl (SQLAlchemyError "LIMIT must not be negative")
        else if offset <? 0 then inl (SQLAlchemyError "OFFSET must not be negative")
        else inr (firstn (Z.to_nat limit) (skipn (Z.to_nat offset) rows), s)
    | SQLite =>
        if negb (in_int64 limit && in_int64 offset)
        then inl (OverflowError "Python int too large to convert to SQLite INTEGER")
        else inr (if limit <? 0
                  then (if offset <? 0 then rows else skipn (Z.to_nat offset) rows)
                  else firstn (Z.to_nat limit)
                         (if offset <? 0 then rows else skipn (Z.to_nat offset) rows),
                  s)
    end.
Proof.
  unfold limit_offset, run. cbn.
  destruct (dialect (store s));
    destruct (negb (in_int64 limit && in_int64 offset)); try reflexivity.
  destruct (limit <? 0); [reflexivity|]. destruct (offset <? 0); reflexivity.
Qed.

Lemma limit_offset_In {A} (limit offset : Z) (rows out : list A) s s' :
  run (limit_offset limit offset rows) s = inr (out, s') ->
  s' = s /\ forall x, In x out -> In x rows.
Proof.
  rewrite run_limit_offset.
  destruct (dialect (store s));
    destruct (negb (in_int64 limit && in_int64 offset)); try discriminate.
  - destruct (limit <? 0); [discriminate|]. destruct (offset <? 0); [discriminate|].
    intros H. inversion H; subst. split; [reflexivity|].
    intros x. apply In_firstn_skipn.
  - intros H. inversion H; subst. split; [reflexivity|]. intros x Hx.
    destruct (limit <? 0), (offset <? 0);
      [ exact Hx | now apply In_skipn in Hx | now apply In_firstn in Hx
      | now apply In_firstn_skipn in Hx ].
Qed.

Lemma run_get_contacts limit offset user d :
  run (repository_contacts.get_contacts limit offset user) (connected d)
  = run (limit_offset limit offset
           (filter (repository_contacts.owned_by user) (contacts d))) (connected d).
Proof.
  unfold repository_contacts.get_contacts. rewrite run_bind, run_query_Contact.
  rewrite run_bind.
  destruct (run (limit_offset _ _ _) (connected d)) as [e|[out s']]; reflexivity.
Qed.

(** X3: every owner-scoped read (the list and the six lookups) returns only
    contacts of the requesting user, and under the table invariant a lookup,
    an [update] and a [remove] addressed to the id of another user's contact
    return absent and change nothing. *)
Lemma owner_scoped_operations_isolated (user : User.t) (d : database) (c : Contact.t) :
  In c (contacts d) ->
  Contact.user_id c <> User.id user ->
  (forall limit offset rows s',
      run (repository_contacts.get_contacts limit offset user) (connected d)
      = inr (rows, s') -> ~ In c rows)
  /\ (forall email, run (repository_contacts.get_contact_by_email email user) (connected d)
                    <> inr (Some c, connected d))
  /\ (forall phone, run (repository_contacts.get_contact_by_phone phone user) (connected d)
                    <> inr (Some c, connected d))
  /\ (forall name, run (repository_contacts.get_contact_by_first_name name user) (connected d)
                   <> inr (Some c, connected d))
  /\ (forall name, run (repository_contacts.get_contact_by_second_name name user) (connected d)
                   <> inr (Some c, connected d))
  /\ (forall bd, run (repository_contacts.get_contact_by_birth_date bd user) (connected d)
                 <> inr (Some c, connected d))
  /\ (forall contact_id,
         run (repository_contacts.get_contact_by_id contact_id user) (connected d)
         <> inr (Some c, connected d))
  /\ (contacts_wf d ->
      run (repository_contacts.get_contact_by_id (Contact.id c) user) (connected d)
      = inr (None, connected d)
      /\ (forall body, run (repository_contacts.update (Contact.id c) body user) (connected d)
                       = inr (None, connected d))
      /\ run (repository_contacts.remove (Contact.id c) user) (connected d)
         = inr (None, connected d)).
Proof.
  intros Hin Hforeign.
  assert (Hlookup : forall q : Contact.t -> bool,
    run (rows <- query_Contact (fun x => q x && repository_contacts.owned_by user x) ;;
         ret (first rows)) (connected d) <> inr (Some c, connected d)).
  { intros q. rewrite run_lookup. intros H.
    assert (Hf : first (filter (fun x => q x && repository_contacts.owned_by user x)
                          (contacts d)) = Some c) by congruence.
    apply first_filter_Some in Hf. destruct Hf as [_ Hp].
    apply andb_true_iff in Hp. destruct Hp as [_ Hp].
    apply Z.eqb_eq in Hp. contradiction. }
  split.
  { intros limit offset rows s' Hrun Hc.
    rewrite run_get_contacts in Hrun.
    apply limit_offset_In in Hrun. destruct Hrun as [_ Hsub].
    apply Hsub, filter_In in Hc. destruct Hc as [_ Hp].
    apply Z.eqb_eq in Hp. contradiction. }
  do 5 (split; [intros ?; apply Hlookup|]).
  split; [intros ?; apply Hlookup|].
  intros Hwf.
  pose proof (get_contact_by_id_foreign user d c Hin Hforeign Hwf) as Hnone.
  rewrite run_get_contact_by_id in Hnone.
  assert (Hf : first (filter (fun x => (Contact.id x =? Contact.id c)
                 && repository_contacts.owned_by user x) (contacts d)) = None)
    by congruence.
  split; [now apply get_contact_by_id_foreign|].
  split; [intros body; now apply run_update_absent | now apply run_remove_absent].
Qed.

(** C1: the birthday-range listing is not owner-scoped.  It takes no user,
    so a call made on behalf of [bob] returns the contacts of [alice] that
    fall in the window, although [bob] cannot reach them by id. *)
Theorem get_contacts_birthday_returns_foreign_contacts :
  Contact.user_id contact_feb05 <> User.id bob
  /\ run (repository_contacts.get_contact_by_id (Contact.id contact_feb05) bob)
         (connected sample_db)
     = inr (None, connected sample_db)
  /\ run (repository_contacts.get_contacts_birthday (mkdate 2024 2 1) (mkdate 2024 2 10))
         (connected sample_db)
     = inr ([contact_feb01; contact_feb05], connected sample_db).
Proof.
  split; [cbn; lia|]. split; reflexivity.
Qed.

(** ** The birthday route *)

(** C3: the route passes four positional arguments to a repository function
    of three parameters, so for every date, user and session the call
    raises before any query runs and the request is answered with status
    500, never with 200 and a list. *)
Theorem get_birthday_list_never_succeeds :
  forall (today : date) (current_user : User.t) (s : Session),
    (exists msg,
        run (db.get_db (routes_contacts.get_birthday_list today current_user)) s
        = inl (TypeError msg)
        \/ run (db.get_db (routes_contacts.get_birthday_list today current_user)) s
           = inl (OverflowError msg))
    /\ serve 200 (routes_contacts.get_birthday_list today current_user) s = 500.
Proof.
  intros today current_user s.
  unfold serve, db.get_db, routes_contacts.get_birthday_list,
    routes_contacts.timedelta_add, run.
  generalize (add_days 7 today). intros end_date.
  destruct (MAXYEAR <? year end_date); cbn.
  - split; [eexists; right; reflexivity | reflexivity].
  - split; [eexists; left; reflexivity | reflexivity].
Qed.

Example get_birthday_list_february :
  run (db.get_db (routes_contacts.get_birthday_list (mkdate 2024 2 1) alice))
      (connected sample_db)
  = inl (TypeError
           "get_contacts_birthday() takes 3 positional arguments but 4 were given").
Proof. reflexivity. Qed.

(** ** Limit and offset *)

Lemma run_get_contacts_page limit offset user d :
  0 <= limit < INT64_LIMIT -> 0 <= offset < INT64_LIMIT ->
  run (repository_contacts.get_contacts limit offset user) (connected d)
  = inr (firstn (Z.to_nat limit)
           (skipn (Z.to_nat offset)
              (filter (repository_contacts.owned_by user) (contacts d))),
         connected d).
Proof.
  intros Hl Ho. rewrite run_get_contacts, run_limit_offset.
  assert (Hin : negb (in_int64 limit && in_int64 offset) = false).
  { apply negb_false_iff. unfold in_int64, INT64_LIMIT in *.
    rewrite !andb_true_iff, !Z.leb_le, !Z.ltb_lt. lia. }
  rewrite Hin.
  destruct (Z.ltb_spec limit 0); [lia|]. destruct (Z.ltb_spec offset 0); [lia|].
  destruct (dialect (store (connected d))); reflexivity.
Qed.

(** Within the range the route and the engines accept, the list is a page
    of at most [limit] contacts of the user, on either engine. *)
Lemma get_contacts_in_range limit offset user d :
  0 <= limit <= 500 -> 0 <= offset < INT64_LIMIT ->
  exists rows,
    run (db.get_db (routes_contacts.get_contacts (Some limit) (Some offset) user))
        (connected d)
    = inr (rows, connected d)
    /\ Z.of_nat (List.length rows) <= limit
    /\ Forall (fun c => In c (contacts d) /\ Contact.user_id c = User.id user) rows.
Proof.
  intros Hl Ho. eexists. split; [|split].
  - unfold db.get_db, routes_contacts.get_contacts, routes_contacts.Query_10_le_500, run.
    destruct (Z.ltb_spec 500 limit); [lia|]. cbn [runStateT catch Exc_stateT].
    fold (run (repository_contacts.get_contacts limit offset user) (connected d)).
    pose proof (run_get_contacts_page limit offset user d) as Hpage.
    unfold INT64_LIMIT in *. specialize (Hpage ltac:(lia) ltac:(lia)).
    unfold run in Hpage. cbn. cbn in Hpage. rewrite Hpage. reflexivity.
  - pose proof (firstn_le_length (Z.to_nat limit)
      (skipn (Z.to_nat offset) (filter (repository_contacts.owned_by user) (contacts d)))).
    lia.
  - apply Forall_forall. intros c Hc.
    apply In_firstn_skipn, filter_In in Hc. destruct Hc as [Hin Hp].
    apply Z.eqb_eq in Hp. auto.
Qed.

(** C6: the list route checks the limit from above only.  A limit of -1
    passes [Query(10, le=500)] and reaches the engine unchecked; SQLite
    reads it as no limit, so the request is answered 200 with all 501
    contacts of the user, more than the limit and more than the cap of 500.
    PostgreSQL refuses the same request, which the session dependency
    answers with 400. *)
Theorem get_contacts_negative_limit_returns_everything :
  (exists rows,
      run (db.get_db (routes_contacts.get_contacts (Some (-1)) (Some 0) alice))
          (connected (crowded_db SQLite))
      = inr (rows, connected (crowded_db SQLite))
      /\ List.length rows = 501%nat)
  /\ handle (mkdate 2024 2 1) alice (GET_contacts (Some (-1)) (Some 0))
       (connected (crowded_db SQLite)) = 200
  /\ handle (mkdate 2024 2 1) alice (GET_contacts (Some (-1)) (Some 0))
       (connected (crowded_db PostgreSQL)) = 400
  /\ handle (mkdate 2024 2 1) alice (GET_contacts (Some 501) (Some 0))
       (connected (crowded_db SQLite)) = 422.
Proof.
  split; [|split; [|split]].
  - eexists. split; [vm_compute; reflexivity | vm_compute; reflexivity].
  - vm_compute. reflexivity.
  - vm_compute. reflexivity.
  - vm_compute. reflexivity.
Qed.

(** ** Storage failures and absent records *)

Lemma run_get_db {A} (endpoint : Repo A) s :
  run (db.get_db endpoint) s
  = match run endpoint s with
    | inl (SQLAlchemyError msg) => inl (HTTPException 400 msg)
    | inl other => inl other
    | inr x => inr x
    end.
Proof.
  unfold db.get_db, run. cbn.
  destruct (runStateT endpoint s) as [[]|]; reflexivity.
Qed.



Lemma run_or_404_after {A} (call : Repo (option A)) s :
  run (found <- call ;; routes_contacts.or_404 found) s
  = match run call s with
    | inl e => inl e
    | inr (Some x, s') => inr (x, s')
    | inr (None, _) => inl (HTTPException 404 "Not Found")
    end.
Proof.
  unfold run. cbn. destruct (runStateT call s) as [e|[[x|] s']]; reflexivity.
Qed.






(** ** Users *)

Lemma run_get_user_by_email email d :
  run (repository_users.get_user_by_email email) (connected d)
  = inr (first (filter (fun u => String.eqb (User.email u) email) (users d)), connected d).
Proof. reflexivity. Qed.

Lemma existsb_false_of_first_None {A} (p : A -> bool) rows :
  first (filter p rows) = None -> existsb p rows = false.
Proof.
  intros H. rewrite first_filter_None in H.
  induction rows as [|r rows IH]; [reflexivity|].
  cbn. rewrite (H r (or_introl eq_refl)). apply IH. intros x Hx. apply H. now right.
Qed.

(** C9: when no stored user has the email of the body, [create_user] gives
    the new user the avatar computed from that email by the Gravatar
    lookup, stores the record and returns it; the stored record carries
    that avatar. *)
Theorem create_user_gravatar_avatar :
  forall (get_image : string -> string) (body : UserModel.t) (d : database),
    run (repository_users.get_user_by_email (UserModel.email body)) (connected d)
    = inr (None, connected d) ->
    exists u d',
      run (repository_users.create_user get_image body) (connected d)
      = inr (u, connected d')
      /\ User.avatar u = Some (get_image (UserModel.email body))
      /\ User.username u = UserModel.username body
      /\ User.email u = UserModel.email body
      /\ User.password u = UserModel.password body
      /\ users d' = (users d ++ [u])%list
      /\ contacts d' = contacts d
      /\ run (repository_users.get_user_by_email (UserModel.email body)) (connected d')
         = inr (Some u, connected d').
Proof.
  intros get_image body d Hfresh.
  rewrite run_get_user_by_email in Hfresh.
  assert (Hnone : first (filter (fun u => String.eqb (User.email u) (UserModel.email body))
                           (users d)) = None) by congruence.
  clear Hfresh.
  exists (repository_users.new_User body (get_image (UserModel.email body))
            (users_id_seq d + 1)).
  exists (set_users
            (users d ++ [repository_users.new_User body (get_image (UserModel.email body))
                           (users_id_seq d + 1)])
            (users_id_seq d + 1) d).
  split.
  { unfold repository_users.create_user, insert_User, run. cbn.
    rewrite (existsb_false_of_first_None _ _ Hnone). reflexivity. }
  do 6 (split; [reflexivity|]).
  rewrite run_get_user_by_email. cbn [users set_users].
  rewrite filter_app.
  rewrite first_filter_None in Hnone. rewrite (filter_none _ _ Hnone).
  cbn. rewrite String.eqb_refl. reflexivity.
Qed.

Lemma create_user_gravatar_avatar_witness :
  run (repository_users.get_user_by_email "carol@example.com") (connected sample_db)
  = inr (None, connected sample_db)
  /\ exists u d',
      run (repository_users.create_user (fun email => String.append "avatar/" email)
             (UserModel.mk "carol" "carol@example.com" "hash-c"))
          (connected sample_db)
      = inr (u, connected d')
      /\ User.avatar u = Some "avatar/carol@example.com".
Proof.
  split; [reflexivity|].
  destruct (create_user_gravatar_avatar (fun email => String.append "avatar/" email)
              (UserModel.mk "carol" "carol@example.com" "hash-c") sample_db eq_refl)
    as (u & d' & Hrun & Havatar & _).
  exists u, d'. split; [exact Hrun | exact Havatar].
Defined.

(** A body whose email is already stored is refused by the unique-email
    constraint; nothing is stored. *)
Lemma create_user_duplicate_email get_image body d u0 :
  run (repository_users.get_user_by_email (UserModel.email body)) (connected d)
  = inr (Some u0, connected d) ->
  exists msg,
    run (repository_users.create_user get_image body) (connected d)
    = inl (SQLAlchemyError msg).
Proof.
  intros Hfound. rewrite run_get_user_by_email in Hfound.
  assert (Hsome : first (filter (fun u => String.eqb (User.email u) (UserModel.email body))
                           (users d)) = Some u0) by congruence.
  apply first_filter_Some in Hsome. destruct Hsome as [Hin Hp].
  assert (Hex : existsb (fun u => String.eqb (User.email u) (UserModel.email body))
                  (users d) = true).
  { apply existsb_exists. eauto. }
  eexists. unfold repository_users.create_user, insert_User, run. cbn.
  rewrite Hex. reflexivity.
Qed.


(** ** The scenario of section 8

    A contact posted by [alice] gets an id; [bob] asking for that id is
    answered 404; [alice] deletes it with 204 and then gets 404 herself. *)
Example scenario_post_get_delete :
  let today := mkdate 2024 2 1 in
  exists c s1 s2,
    run (db.get_db (routes_contacts.create_contact sample_body alice)) (connected empty_db)
    = inr (c, s1)
    /\ Contact.id c = 1
    /\ handle today alice (POST_contact sample_body) (connected empty_db) = 201
    /\ handle today bob (GET_contact (Contact.id c)) s1 = 404
    /\ handle today alice (GET_contact (Contact.id c)) s1 = 200
    /\ run (db.get_db (routes_contacts.remove_contact (Contact.id c) alice)) s1
       = inr (c, s2)
    /\ handle today alice (DELETE_contact (Contact.id c)) s1 = 204
    /\ handle today alice (GET_contact (Contact.id c)) s2 = 404.
Proof.
  cbv zeta. do 3 eexists.
  split; [reflexivity|]. split; [reflexivity|]. split; [reflexivity|].
  split; [reflexivity|]. split; [reflexivity|]. split; [reflexivity|].
  split; reflexivity.
Qed.

(** * Further properties of the repositories and routes *)

(** ** Lookups *)


Lemma first_filter_split {A} (p : A -> bool) rows x :
  first (filter p rows) = Some x ->
  exists before after,
    rows = (before ++ x :: after)%list /\ p x = true
    /\ forall y, In y before -> p y = false.
Proof.
  induction rows as [|r rows IH]; [discriminate|].
  cbn. destruct (p r) eqn:Hr.
  - cbn. intros H. inversion H; subst.
    exists [], rows. repeat split; auto. intros y [].
  - intros H. destruct (IH H) as (before & after & -> & Hx & Hbefore).
    exists (r :: before), after. repeat split; auto.
    intros y [<-|Hy]; auto.
Qed.



Lemma contacts_wf_id_inj d x y :
  contacts_wf d -> In x (contacts d) -> In y (contacts d) ->
  Contact.id x = Contact.id y -> x = y.
Proof.
  intros [_ Hnd]. induction (contacts d) as [|r rows IH]; [contradiction|].
  cbn in Hnd. inversion Hnd as [|? ? Hnotin Hnd']; subst.
  intros [->|Hx] [->|Hy] E; auto.
  - exfalso. apply Hnotin. rewrite E. now apply in_map.
  - exfalso. apply Hnotin. rewrite <- E. now apply in_map.
Qed.

(** X2: on a store that satisfies the table invariant, a lookup by id made
    by the owner finds the contact wherever it is stored, and a lookup that
    finds a contact finds the only stored contact with that id. *)
Theorem get_contact_by_id_finds_the_contact :
  forall (user : User.t) (d : database) (c : Contact.t),
    contacts_wf d ->
    In c (contacts d) ->
    Contact.user_id c = User.id user ->
    run (repository_contacts.get_contact_by_id (Contact.id c) user) (connected d)
    = inr (Some c, connected d)
    /\ forall x, In x (contacts d) -> Contact.id x = Contact.id c -> x = c.
Proof.
  intros user d c Hwf Hin Hown.
  assert (Huniq : forall x, In x (contacts d) -> Contact.id x = Contact.id c -> x = c).
  { intros x Hx E. now apply (contacts_wf_id_inj d). }
  split; [|exact Huniq].
  rewrite run_get_contact_by_id. f_equal. f_equal.
  destruct (first (filter _ (contacts d))) as [x|] eqn:Hfirst.
  - apply first_filter_Some in Hfirst. destruct Hfirst as [Hx Hp].
    apply andb_true_iff in Hp. destruct Hp as [Hid _]. apply Z.eqb_eq in Hid.
    f_equal. now apply Huniq.
  - rewrite first_filter_None in Hfirst. specialize (Hfirst c Hin).
    unfold repository_contacts.owned_by in Hfirst.
    rewrite Z.eqb_refl, Hown, Z.eqb_refl in Hfirst. discriminate.
Qed.

Lemma sample_db_wf : contacts_wf sample_db.
Proof.
  split.
  - repeat constructor; cbn; lia.
  - cbn. repeat constructor; cbn; intuition lia.
Defined.

Lemma get_contact_by_id_finds_the_contact_witness :
  contacts_wf sample_db
  /\ In contact_feb20 (contacts sample_db)
  /\ Contact.user_id contact_feb20 = User.id alice
  /\ run (repository_contacts.get_contact_by_id 3 alice) (connected sample_db)
     = inr (Some contact_feb20, connected sample_db).
Proof.
  assert (Hin : In contact_feb20 (contacts sample_db)) by (cbn; auto).
  split; [exact sample_db_wf|]. split; [exact Hin|]. split; [reflexivity|].
  exact (proj1 (get_contact_by_id_finds_the_contact alice sample_db contact_feb20
                  sample_db_wf Hin eq_refl)).
Defined.

Lemma owner_scoped_operations_isolated_witness :
  In contact_feb05 (contacts sample_db)
  /\ Contact.user_id contact_feb05 <> User.id bob
  /\ contacts_wf sample_db
  /\ (forall body,
        run (repository_contacts.update (Contact.id contact_feb05) body bob)
            (connected sample_db)
        = inr (None, connected sample_db))
  /\ run (repository_contacts.remove (Contact.id contact_feb05) bob) (connected sample_db)
     = inr (None, connected sample_db).
Proof.
  assert (Hin : In contact_feb05 (contacts sample_db)) by (cbn; auto).
  assert (Hforeign : Contact.user_id contact_feb05 <> User.id bob) by (cbn; lia).
  split; [exact Hin|]. split; [exact Hforeign|]. split; [exact sample_db_wf|].
  destruct (owner_scoped_operations_isolated bob sample_db contact_feb05 Hin Hforeign)
    as (_ & _ & _ & _ & _ & _ & _ & Hwrites).
  destruct (Hwrites sample_db_wf) as (_ & Hupdate & Hremove).
  split; [exact Hupdate | exact Hremove].
Defined.

(** ** The table invariant *)



(** ** Pages of the contact list *)

Lemma firstn_add {A} (a b : nat) (l : list A) :
  firstn (a + b) l = (firstn a l ++ firstn b (skipn a l))%list.
Proof.
  revert l. induction a as [|a IH]; intros l; [reflexivity|].
  destruct l as [|x l]; cbn.
  - now rewrite firstn_nil.
  - now rewrite IH.
Qed.

(** X5: on either engine, for limits and an offset that are not negative
    and stay within the engines' 64-bit range, consecutive pages of the
    contact list join without gap or overlap: the page of [limit1] rows at
    [offset] followed by the page of [limit2] rows at [offset + limit1] is
    the page of [limit1 + limit2] rows at [offset]. *)
Theorem get_contacts_pages_join :
  forall (limit1 limit2 offset : Z) (user : User.t) (d : database),
    0 <= limit1 -> 0 <= limit2 -> 0 <= offset ->
    limit1 + limit2 < INT64_LIMIT -> offset + limit1 < INT64_LIMIT ->
    exists page1 page2,
      run (repository_contacts.get_contacts limit1 offset user) (connected d)
      = inr (page1, connected d)
      /\ run (repository_contacts.get_contacts limit2 (offset + limit1) user) (connected d)
         = inr (page2, connected d)
      /\ run (repository_contacts.get_contacts (limit1 + limit2) offset user) (connected d)
         = inr ((page1 ++ page2)%list, connected d).
Proof.
  intros limit1 limit2 offset user d H1 H2 Ho Hl Hlo.
  eexists. eexists.
  split; [apply run_get_contacts_page; lia|].
  split; [apply run_get_contacts_page; lia|].
  rewrite run_get_contacts_page by lia. f_equal. f_equal.
  rewrite !Z2Nat.inj_add by lia.
  rewrite firstn_add, skipn_skipn. do 3 f_equal. lia.
Qed.

Lemma get_contacts_pages_join_witness :
  0 <= 1 /\ 0 <= 2 /\ 0 <= 0 /\ 1 + 2 < INT64_LIMIT /\ 0 + 1 < INT64_LIMIT
  /\ exists page1 page2,
      run (repository_contacts.get_contacts 1 0 alice) (connected sample_db)
      = inr (page1, connected sample_db)
      /\ run (repository_contacts.get_contacts 2 (0 + 1) alice) (connected sample_db)
         = inr (page2, connected sample_db)
      /\ run (repository_contacts.get_contacts (1 + 2) 0 alice) (connected sample_db)
         = inr ((page1 ++ page2)%list, connected sample_db).
Proof.
  assert (Hr1 : 1 + 2 < INT64_LIMIT) by (unfold INT64_LIMIT; lia).
  assert (Hr2 : 0 + 1 < INT64_LIMIT) by (unfold INT64_LIMIT; lia).
  split; [lia|]. split; [lia|]. split; [lia|]. split; [exact Hr1|]. split; [exact Hr2|].
  apply (get_contacts_pages_join 1 2 0 alice sample_db); auto; lia.
Defined.

(** X6: on either engine and within the engines' 64-bit range, a limit that
    covers the user's contacts returns all of them, in storage order, from
    offset 0; an offset at or past their number returns the empty list, and
    so does limit 0. *)
Theorem get_contacts_whole_list_and_past_the_end :
  forall (limit offset : Z) (user : User.t) (d : database),
    limit < INT64_LIMIT ->
    offset < INT64_LIMIT ->
    let owned := filter (repository_contacts.owned_by user) (contacts d) in
    (Z.of_nat (List.length owned) <= limit ->
     run (repository_contacts.get_contacts limit 0 user) (connected d)
     = inr (owned, connected d))
    /\ (0 <= limit -> Z.of_nat (List.length owned) <= offset ->
        run (repository_contacts.get_contacts limit offset user) (connected d)
        = inr ([], connected d))
    /\ (0 <= offset ->
        run (repository_contacts.get_contacts 0 offset user) (connected d)
        = inr ([], connected d)).
Proof.
  intros limit offset user d Hlr Hor owned.
  assert (Hzero : 0 < INT64_LIMIT) by (unfold INT64_LIMIT; lia).
  split; [|split].
  - intros Hl. rewrite run_get_contacts_page by lia. f_equal. f_equal.
    cbn. apply firstn_all2. subst owned. lia.
  - intros Hl Ho. rewrite run_get_contacts_page by lia. f_equal. f_equal.
    rewrite skipn_all2; [apply firstn_nil | subst owned; lia].
  - intros Ho. rewrite run_get_contacts_page by lia. reflexivity.
Qed.

Lemma get_contacts_whole_list_and_past_the_end_witness :
  500 < INT64_LIMIT /\ 10 < INT64_LIMIT /\ 3 < INT64_LIMIT
  /\ run (repository_contacts.get_contacts 500 0 alice) (connected sample_db)
     = inr ([contact_feb01; contact_feb05; contact_feb20], connected sample_db)
  /\ run (repository_contacts.get_contacts 10 3 alice) (connected sample_db)
     = inr ([], connected sample_db).
Proof.
  assert (H500 : 500 < INT64_LIMIT) by (unfold INT64_LIMIT; lia).
  assert (H10 : 10 < INT64_LIMIT) by (unfold INT64_LIMIT; lia).
  assert (H3 : 3 < INT64_LIMIT) by (unfold INT64_LIMIT; lia).
  destruct (get_contacts_whole_list_and_past_the_end 500 3 alice sample_db H500 H3)
    as (Hall & _ & _).
  destruct (get_contacts_whole_list_and_past_the_end 10 3 alice sample_db H10 H3)
    as (_ & Hpast & _).
  split; [exact H500|]. split; [exact H10|]. split; [exact H3|].
  split; [apply Hall; cbn; lia | apply Hpast; cbn; lia].
Defined.

(** ** How the writes compose *)

Lemma filter_all {A} (p : A -> bool) rows :
  (forall x, In x rows -> p x = true) -> filter p rows = rows.
Proof.
  induction rows as [|r rows IH]; intros H; [reflexivity|].
  cbn. rewrite (H r (or_introl eq_refl)). f_equal. apply IH.
  intros x Hx. apply H. now right.
Qed.







(** X8: the last update wins: two updates of the same contact by the same
    user, one after the other, return and store what the second alone would
    have returned and stored; on an absent contact both ways return absent
    and change nothing. *)
Theorem update_last_write_wins :
  forall (contact_id : Z) (body1 body2 : ContactModel.t) (user : User.t) (d : database),
    run (_ <- repository_contacts.update contact_id body1 user ;;
         repository_contacts.update contact_id body2 user) (connected d)
    = run (repository_contacts.update contact_id body2 user) (connected d).
Proof.
  intros contact_id body1 body2 user d. rewrite run_bind.
  destruct (first (filter (fun c => (Contact.id c =? contact_id)
              && repository_contacts.owned_by user c) (contacts d))) as [c|] eqn:Hfirst.
  - rewrite (run_update_found _ body1 _ _ _ Hfirst).
    rewrite (run_update_found _ body2 _ _ _ Hfirst).
    pose proof (first_filter_Some _ _ _ Hfirst) as [_ Hp].
    assert (Hfirst1 :
      first (filter (fun c => (Contact.id c =? contact_id)
               && repository_contacts.owned_by user c)
               (contacts (set_contacts
                  (map (fun r => if Contact.id r =? Contact.id c
                                 then repository_contacts.assign_fields c body1 else r)
                       (contacts d))
                  (contacts_id_seq d) d)))
      = Some (repository_contacts.assign_fields c body1)).
    { cbn [contacts set_contacts].
      apply (first_filter_replace Contact.id _ c
               (repository_contacts.assign_fields c body1));
        [reflexivity | exact Hp | exact Hfirst]. }
    rewrite (run_update_found _ body2 _ _ _ Hfirst1).
    f_equal. f_equal. f_equal. unfold set_contacts. cbn. f_equal.
    rewrite map_map. apply map_ext. intros r.
    destruct (Z.eqb_spec (Contact.id r) (Contact.id c)) as [E|E]; cbn.
    + now rewrite Z.eqb_refl.
    + destruct (Z.eqb_spec (Contact.id r) (Contact.id c)); [contradiction|reflexivity].
  - rewrite (run_update_absent _ body1 _ _ Hfirst).
    reflexivity.
Qed.

(** X10: on a store that satisfies the table invariant, creating a contact
    and removing it by the returned id, as the same user, returns the
    created record, with the five fields of the body and the user as owner,
    and leaves the stored contacts and users exactly as they were. *)
Theorem create_then_remove_restores_contacts :
  forall (body : ContactModel.t) (user : User.t) (d : database),
    contacts_wf d ->
    exists c d',
      run (created <- repository_contacts.create body user ;;
           repository_contacts.remove (Contact.id created) user) (connected d)
      = inr (Some c, connected d')
      /\ Contact.first_name c = ContactModel.first_name body
      /\ Contact.second_name c = ContactModel.second_name body
      /\ Contact.email c = ContactModel.email body
      /\ Contact.phone c = ContactModel.phone body
      /\ Contact.birth_date c = ContactModel.birth_date body
      /\ Contact.user_id c = User.id user
      /\ contacts d' = contacts d
      /\ users d' = users d.
Proof.
  intros body user d [Hle _].
  rewrite Forall_forall in Hle.
  assert (Hold : forall x, In x (contacts d) ->
                           (Contact.id x =? contacts_id_seq d + 1) = false).
  { intros x Hx. apply Z.eqb_neq. specialize (Hle x Hx). cbn in Hle. lia. }
  eexists. eexists. split.
  - rewrite run_bind, run_create.
    apply run_remove_found. cbn [contacts set_contacts Contact.id
      repository_contacts.new_Contact].
    rewrite filter_app, filter_none.
    + cbn. unfold repository_contacts.owned_by. cbn. now rewrite !Z.eqb_refl.
    + intros x Hx. now rewrite (Hold x Hx).
  - do 6 (split; [reflexivity|]). split; [|reflexivity].
    cbn [contacts set_contacts Contact.id repository_contacts.new_Contact].
    rewrite filter_app. cbn. rewrite Z.eqb_refl. cbn. rewrite app_nil_r.
    apply filter_all. intros x Hx. now rewrite (Hold x Hx).
Qed.

Lemma create_then_remove_restores_contacts_witness :
  contacts_wf sample_db
  /\ exists c d',
      run (created <- repository_contacts.create sample_body bob ;;
           repository_contacts.remove (Contact.id created) bob) (connected sample_db)
      = inr (Some c, connected d')
      /\ Contact.first_name c = ContactModel.first_name sample_body
      /\ Contact.second_name c = ContactModel.second_name sample_body
      /\ Contact.email c = ContactModel.email sample_body
      /\ Contact.phone c = ContactModel.phone sample_body
      /\ Contact.birth_date c = ContactModel.birth_date sample_body
      /\ Contact.user_id c = User.id bob
      /\ contacts d' = contacts sample_db
      /\ users d' = users sample_db.
Proof.
  split; [exact sample_db_wf|].
  apply (create_then_remove_restores_contacts sample_body bob sample_db sample_db_wf).
Defined.

(** ** Updates of a user *)

Lemma run_confirmed_email_found email d u :
  first (filter (fun r => String.eqb (User.email r) email) (users d)) = Some u ->
  run (repository_users.confirmed_email email) (connected d)
  = inr (tt, connected (set_users
                          (map (fun r => if User.id r =? User.id u
                                         then repository_users.set_confirmed u true else r)
                               (users d))
                          (users_id_seq d) d)).
Proof. intros H. unfold repository_users.confirmed_email. run_first H. Qed.

Lemma run_update_avatar_found email url d u :
  first (filter (fun r => String.eqb (User.email r) email) (users d)) = Some u ->
  run (repository_users.update_avatar email url) (connected d)
  = inr (repository_users.set_avatar u url,
         connected (set_users
                      (map (fun r => if User.id r =? User.id u
                                     then repository_users.set_avatar u url else r)
                           (users d))
                      (users_id_seq d) d)).
Proof. intros H. unfold repository_users.update_avatar. run_first H. Qed.

Lemma run_user_absent email d :
  first (filter (fun r => String.eqb (User.email r) email) (users d)) = None ->
  run (repository_users.confirmed_email email) (connected d)
  = inl (AttributeError "'NoneType' object has no attribute 'confirmed'")
  /\ forall url,
      run (repository_users.update_avatar email url) (connected d)
      = inl (AttributeError "'NoneType' object has no attribute 'avatar'").
Proof.
  intros H. split; [|intros url].
  - unfold repository_users.confirmed_email. run_first H.
  - unfold repository_users.update_avatar. run_first H.
Qed.

Lemma map_replace_twice (u1 u2 : User.t) rows :
  User.id u2 = User.id u1 ->
  map (fun r => if User.id r =? User.id u2 then u2 else r)
      (map (fun r => if User.id r =? User.id u1 then u1 else r) rows)
  = map (fun r => if User.id r =? User.id u2 then u2 else r) rows.
Proof.
  intros Hid. rewrite map_map. apply map_ext. intros r. rewrite Hid.
  destruct (Z.eqb_spec (User.id r) (User.id u1)) as [E|E].
  - now rewrite Z.eqb_refl.
  - destruct (Z.eqb_spec (User.id r) (User.id u1)); [contradiction|reflexivity].
Qed.



(** X11: confirming an email twice is the same as confirming it once: the
    second call succeeds and leaves the store as the first left it; when no
    user has the email, both ways raise the same error. *)
Theorem confirmed_email_idempotent :
  forall (email : string) (d : database),
    run (_ <- repository_users.confirmed_email email ;;
         repository_users.confirmed_email email) (connected d)
    = run (repository_users.confirmed_email email) (connected d).
Proof.
  intros email d. rewrite run_bind.
  destruct (first (filter (fun r => String.eqb (User.email r) email) (users d)))
    as [u|] eqn:Hfirst.
  - rewrite (run_confirmed_email_found _ _ _ Hfirst).
    pose proof (first_filter_Some _ _ _ Hfirst) as [_ Hmail].
    assert (Hfirst1 :
      first (filter (fun r => String.eqb (User.email r) email)
               (users (set_users
                  (map (fun r => if User.id r =? User.id u
                                 then repository_users.set_confirmed u true else r)
                       (users d))
                  (users_id_seq d) d)))
      = Some (repository_users.set_confirmed u true)).
    { cbn [users set_users].
      apply (first_filter_replace User.id _ u (repository_users.set_confirmed u true));
        [reflexivity | exact Hmail | exact Hfirst]. }
    rewrite (run_confirmed_email_found _ _ _ Hfirst1).
    f_equal. f_equal. f_equal. unfold set_users. cbn [users users_id_seq contacts
      contacts_id_seq]. f_equal.
    apply (map_replace_twice (repository_users.set_confirmed u true)
             (repository_users.set_confirmed
                (repository_users.set_confirmed u true) true)).
    reflexivity.
  - now rewrite (proj1 (run_user_absent _ _ Hfirst)).
Qed.

(** X12: the last avatar wins: two calls of [update_avatar] for the same
    email, one after the other, return and store what the second alone would
    have; when no user has the email, both ways raise the same error. *)
Theorem update_avatar_last_write_wins :
  forall (email url1 url2 : string) (d : database),
    run (_ <- repository_users.update_avatar email url1 ;;
         repository_users.update_avatar email url2) (connected d)
    = run (repository_users.update_avatar email url2) (connected d).
Proof.
  intros email url1 url2 d. rewrite run_bind.
  destruct (first (filter (fun r => String.eqb (User.email r) email) (users d)))
    as [u|] eqn:Hfirst.
  - rewrite (run_update_avatar_found _ url1 _ _ Hfirst).
    rewrite (run_update_avatar_found _ url2 _ _ Hfirst).
    pose proof (first_filter_Some _ _ _ Hfirst) as [_ Hmail].
    assert (Hfirst1 :
      first (filter (fun r => String.eqb (User.email r) email)
               (users (set_users
                  (map (fun r => if User.id r =? User.id u
                                 then repository_users.set_avatar u url1 else r)
                       (users d))
                  (users_id_seq d) d)))
      = Some (repository_users.set_avatar u url1)).
    { cbn [users set_users].
      apply (first_filter_replace User.id _ u (repository_users.set_avatar u url1));
        [reflexivity | exact Hmail | exact Hfirst]. }
    rewrite (run_update_avatar_found _ url2 _ _ Hfirst1).
    f_equal. f_equal. f_equal. unfold set_users. cbn [users users_id_seq contacts
      contacts_id_seq]. f_equal.
    apply (map_replace_twice (repository_users.set_avatar u url1)
             (repository_users.set_avatar (repository_users.set_avatar u url1) url2)).
    reflexivity.
  - destruct (run_user_absent _ _ Hfirst) as [_ Habsent].
    now rewrite !Habsent.
Qed.

(** ** The health check *)

(** X13: whatever the statement of the health check does, the caller sees
    one of two outcomes: the welcome message, exactly when the statement
    returned a row, or status 500 with the detail "Error connecting to the
    database".  The detail "Database is not configured correctly" raised
    inside the [try] is caught by its own [except] and never reaches the
    caller, and the 400 of the session dependency never applies. *)
Theorem healthchecker_two_outcomes :
  forall (fetchone : Repo (option Z)) (s : Session),
    main.healthchecker = healthchecker_on main.select_1
    /\ match run fetchone s with
       | inr (Some _, s') =>
           run (db.get_db (healthchecker_on fetchone)) s
           = inr ("Welcome to FastAPI!", s')
           /\ serve 200 (healthchecker_on fetchone) s = 200
       | _ =>
           run (db.get_db (healthchecker_on fetchone)) s
           = inl (HTTPException 500 "Error connecting to the database")
           /\ serve 200 (healthchecker_on fetchone) s = 500
       end.
Proof.
  intros fetchone s. split; [reflexivity|].
  unfold serve. rewrite run_get_db.
  assert (Hrun : run (healthchecker_on fetchone) s
                 = match run fetchone s with
                   | inr (Some _, s') => inr ("Welcome to FastAPI!", s')
                   | _ => inl (HTTPException 500 "Error connecting to the database")
                   end).
  { unfold healthchecker_on, run. cbn.
    destruct (runStateT fetchone s) as [e|[[row|] s']]; reflexivity. }
  rewrite Hrun.
  destruct (run fetchone s) as [e|[[row|] s']]; split; reflexivity.
Qed.

(** ** The window of the birthday route *)

Lemma days_in_month_bounds y m : 28 <= days_in_month y m <= 31.
Proof.
  unfold days_in_month.
  destruct (m =? 2); [destruct (is_leap y); lia|].
  destruct ((m =? 4) || (m =? 6) || (m =? 9) || (m =? 11)); lia.
Qed.

Lemma add_days_within_four_weeks (k : nat) (d : date) :
  (k <= 28)%nat ->
  1 <= day d <= days_in_month (year d) (month d) ->
  add_days k d
  = if day d + Z.of_nat k <=? days_in_month (year d) (month d)
    then mkdate (year d) (month d) (day d + Z.of_nat k)
    else if month d <? 12
         then mkdate (year d) (month d + 1)
                (day d + Z.of_nat k - days_in_month (year d) (month d))
         else mkdate (year d + 1) 1
                (day d + Z.of_nat k - days_in_month (year d) (month d)).
Proof.
  intros Hk Hd. induction k as [|k IH].
  - cbn. rewrite Z.add_0_r.
    destruct (Z.leb_spec (day d) (days_in_month (year d) (month d))); [|lia].
    now destruct d.
  - change (add_days (S k) d) with (next_day (add_days k d)).
    rewrite IH by lia. clear IH.
    pose proof (days_in_month_bounds (year d) (month d)) as Hb.
    rewrite Nat2Z.inj_succ.
    destruct (Z.leb_spec (day d + Z.of_nat k) (days_in_month (year d) (month d)))
      as [Hin|Hout].
    + unfold next_day. cbn [year month day].
      destruct (Z.ltb_spec (day d + Z.of_nat k) (days_in_month (year d) (month d))).
      * destruct (Z.leb_spec (day d + Z.succ (Z.of_nat k))
                    (days_in_month (year d) (month d))); [|lia].
        f_equal. lia.
      * destruct (Z.leb_spec (day d + Z.succ (Z.of_nat k))
                    (days_in_month (year d) (month d))); [lia|].
        destruct (month d <? 12); f_equal; lia.
    + destruct (Z.leb_spec (day d + Z.succ (Z.of_nat k))
                  (days_in_month (year d) (month d))); [lia|].
      destruct (month d <? 12); unfold next_day; cbn [year month day].
      * pose proof (days_in_month_bounds (year d) (month d + 1)).
        destruct (Z.ltb_spec (day d + Z.of_nat k - days_in_month (year d) (month d))
                    (days_in_month (year d) (month d + 1))); [f_equal; lia|lia].
      * pose proof (days_in_month_bounds (year d + 1) 1).
        destruct (Z.ltb_spec (day d + Z.of_nat k - days_in_month (year d) (month d))
                    (days_in_month (year d + 1) 1)); [f_equal; lia|lia].
Qed.

Lemma run_get_contacts_birthday start_date end_date d :
  run (repository_contacts.get_contacts_birthday start_date end_date) (connected d)
  = inr (filter (fun c =>
                   (month (Contact.birth_date c) =? month start_date)
                   && repository_contacts.between (day (Contact.birth_date c))
                        (day start_date) (day end_date))
                (contacts d),
         connected d).
Proof. reflexivity. Qed.

Lemma run_timedelta_add today days s :
  run (routes_contacts.timedelta_add today days) s
  = if MAXYEAR <? year (add_days days today)
    then inl (OverflowError "date value out of range")
    else inr (add_days days today, s).
Proof.
  unfold routes_contacts.timedelta_add, run.
  destruct (MAXYEAR <? year (add_days days today)); reflexivity.
Qed.

(** X14: the window of the birthday route, today and today plus seven days
    as the route computes it, handed to the birthday query.  For a date
    [today] of the calendar the addition raises [OverflowError] exactly when
    the end date would fall after the year 9999; otherwise the end date is
    again a date of the calendar.  While [today.day + 7] stays within the
    month the end date is the same month, seven days later; once it passes
    the end of the month the end day is smaller than the start day and the
    query returns no contact at all, whatever is stored. *)
Theorem birthday_window_of_a_week :
  forall (today : date) (d : database) (s : Session),
    valid_date today ->
    let last := days_in_month (year today) (month today) in
    match run (routes_contacts.timedelta_add today 7) s with
    | inr (end_date, s') =>
        s' = s
        /\ valid_date end_date
        /\ ~ (year today = MAXYEAR /\ month today = 12 /\ last < day today + 7)
        /\ (day today + 7 <= last ->
            end_date = mkdate (year today) (month today) (day today + 7))
        /\ (last < day today + 7 ->
            day end_date < day today
            /\ run (repository_contacts.get_contacts_birthday today end_date)
                   (connected d)
               = inr ([], connected d))
    | inl e =>
        e = OverflowError "date value out of range"
        /\ year today = MAXYEAR /\ month today = 12 /\ last < day today + 7
    end.
Proof.
  intros today d s (Hy & Hm & Hd) last. fold last in Hd.
  rewrite run_timedelta_add.
  assert (Hend := add_days_within_four_weeks 7 today ltac:(lia) Hd).
  change (Z.of_nat 7) with 7 in Hend. fold last in Hend.
  pose proof (days_in_month_bounds (year today) (month today)) as Hb. fold last in Hb.
  unfold MINYEAR, MAXYEAR in *.
  destruct (Z.leb_spec (day today + 7) last) as [Hin|Hout].
  - rewrite Hend. cbn [year]. destruct (Z.ltb_spec 9999 (year today)); [lia|].
    split; [reflexivity|]. split.
    { unfold valid_date, MINYEAR, MAXYEAR. cbn [year month day]. fold last. lia. }
    split; [lia|]. split; [reflexivity | lia].
  - assert (Hday : day (add_days 7 today) = day today + 7 - last).
    { rewrite Hend. destruct (month today <? 12); reflexivity. }
    assert (Hempty :
      run (repository_contacts.get_contacts_birthday today (add_days 7 today))
          (connected d) = inr ([], connected d)).
    { rewrite run_get_contacts_birthday. f_equal. f_equal.
      apply filter_none. intros c _.
      apply andb_false_iff. right. unfold repository_contacts.between.
      apply andb_false_iff.
      destruct (Z.leb_spec (day today) (day (Contact.birth_date c))); [right|now left].
      apply Z.leb_gt. lia. }
    revert Hday Hempty. rewrite Hend.
    destruct (Z.ltb_spec (month today) 12) as [Hlt|Hdec]; cbn [year month day];
      intros Hday Hempty.
    + destruct (Z.ltb_spec 9999 (year today)); [lia|].
      split; [reflexivity|]. split.
      { unfold valid_date, MINYEAR, MAXYEAR. cbn [year month day].
        pose proof (days_in_month_bounds (year today) (month today + 1)). lia. }
      split; [lia|]. split; [lia|]. intros _. split; [cbn [day]; lia | exact Hempty].
    + destruct (Z.ltb_spec 9999 (year today + 1)).
      * repeat split; lia.
      * split; [reflexivity|]. split.
        { unfold valid_date, MINYEAR, MAXYEAR. cbn [year month day].
          pose proof (days_in_month_bounds (year today + 1) 1). lia. }
        split; [lia|]. split; [lia|]. intros _. split; [cbn [day]; lia | exact Hempty].
Qed.

Lemma birthday_window_of_a_week_witness :
  valid_date (mkdate 2024 1 28)
  /\ run (routes_contacts.timedelta_add (mkdate 2024 1 28) 7) (connected sample_db)
     = inr (mkdate 2024 2 4, connected sample_db)
  /\ run (repository_contacts.get_contacts_birthday (mkdate 2024 1 28) (mkdate 2024 2 4))
         (connected sample_db)
     = inr ([], connected sample_db).
Proof.
  assert (Hvalid : valid_date (mkdate 2024 1 28)).
  { unfold valid_date, MINYEAR, MAXYEAR. cbn. lia. }
  assert (Hrun : run (routes_contacts.timedelta_add (mkdate 2024 1 28) 7)
                     (connected sample_db)
                 = inr (mkdate 2024 2 4, connected sample_db)) by reflexivity.
  split; [exact Hvalid|]. split; [exact Hrun|].
  pose proof (birthday_window_of_a_week (mkdate 2024 1 28) sample_db
                (connected sample_db) Hvalid) as Hweek.
  cbv zeta in Hweek. rewrite Hrun in Hweek.
  destruct Hweek as (_ & _ & _ & _ & Hout).
  apply Hout. cbn. lia.
Defined.

(** X15: the birthday query reads only the month and the day of the start
    date and the day of the end date: the years of both dates and the month
    of the end date make no difference to its result. *)
Theorem get_contacts_birthday_ignores_years_and_end_month :
  forall (start_date end_date start_date' end_date' : date) (d : database),
    month start_date = month start_date' ->
    day start_date = day start_date' ->
    day end_date = day end_date' ->
    run (repository_contacts.get_contacts_birthday start_date end_date) (connected d)
    = run (repository_contacts.get_contacts_birthday start_date' end_date') (connected d).
Proof.
  intros s e s' e' d Hm Hs He.
  rewrite !run_get_contacts_birthday, Hm, Hs, He. reflexivity.
Qed.

Lemma get_contacts_birthday_ignores_years_and_end_month_witness :
  run (repository_contacts.get_contacts_birthday (mkdate 2024 2 1) (mkdate 2024 3 10))
      (connected sample_db)
  = run (repository_contacts.get_contacts_birthday (mkdate 1999 2 1) (mkdate 2031 2 10))
        (connected sample_db).
Proof.
  apply (get_contacts_birthday_ignores_years_and_end_month
           (mkdate 2024 2 1) (mkdate 2024 3 10) (mkdate 1999 2 1) (mkdate 2031 2 10)
           sample_db); reflexivity.
Defined.

(** ** Users by email *)

(** X16: [get_user_by_email] answers with the first stored user, in storage
    order, whose email is the requested one, absent exactly when no stored
    user has that email, and never changes the store. *)
Theorem get_user_by_email_first_match :
  forall (email : string) (d : database),
    exists found,
      run (repository_users.get_user_by_email email) (connected d)
      = inr (found, connected d)
      /\ match found with
         | Some u =>
             exists before after,
               users d = (before ++ u :: after)%list
               /\ User.email u = email
               /\ forall x, In x before -> User.email x <> email
         | None => forall x, In x (users d) -> User.email x <> email
         end.
Proof.
  intros email d. rewrite run_get_user_by_email. eexists. split; [reflexivity|].
  destruct (first (filter _ (users d))) as [u|] eqn:Hfirst.
  - apply first_filter_split in Hfirst.
    destruct Hfirst as (before & after & Hrows & Hu & Hbefore).
    exists before, after. split; [exact Hrows|].
    split; [now apply String.eqb_eq|].
    intros x Hx. apply String.eqb_neq. now apply Hbefore.
  - rewrite first_filter_None in Hfirst.
    intros x Hx. apply String.eqb_neq. now apply Hfirst.
Qed.

(** ** Requests, one after the other *)

Lemma run_Path_ge_1 {A} contact_id (k : Z -> Repo A) s :
  run (checked <- routes_contacts.Path_ge_1 contact_id ;; k checked) s
  = if contact_id <? 1
    then inl (RequestValidationError "ensure this value is greater than or equal to 1")
    else run (k contact_id) s.
Proof.
  unfold routes_contacts.Path_ge_1, run. destruct (contact_id <? 1); reflexivity.
Qed.

Lemma run_get_contact_route contact_id user s :
  run (db.get_db (routes_contacts.get_contact contact_id user)) s
  = if contact_id <? 1
    then inl (RequestValidationError "ensure this value is greater than or equal to 1")
    else match run (repository_contacts.get_contact_by_id contact_id user) s with
         | inl (SQLAlchemyError msg) => inl (HTTPException 400 msg)
         | inl other => inl other
         | inr (Some c, s') => inr (c, s')
         | inr (None, _) => inl (HTTPException 404 "Not Found")
         end.
Proof.
  rewrite run_get_db. unfold routes_contacts.get_contact. rewrite run_Path_ge_1.
  destruct (contact_id <? 1); [reflexivity|]. cbv beta. rewrite run_or_404_after.
  destruct (run _ s) as [[]|[[|] ?]]; reflexivity.
Qed.

Lemma run_remove_contact_route contact_id user s :
  run (db.get_db (routes_contacts.remove_contact contact_id user)) s
  = if contact_id <? 1
    then inl (RequestValidationError "ensure this value is greater than or equal to 1")
    else match run (repository_contacts.remove contact_id user) s with
         | inl (SQLAlchemyError msg) => inl (HTTPException 400 msg)
         | inl other => inl other
         | inr (Some c, s') => inr (c, s')
         | inr (None, _) => inl (HTTPException 404 "Not Found")
         end.
Proof.
  rewrite run_get_db. unfold routes_contacts.remove_contact. rewrite run_Path_ge_1.
  destruct (contact_id <? 1); [reflexivity|]. cbv beta. rewrite run_or_404_after.
  destruct (run _ s) as [[]|[[|] ?]]; reflexivity.
Qed.

(** X17: a contact the user can get is deleted by a DELETE of the same id,
    which answers with that contact; after it a GET and a second DELETE of
    the id are both answered 404. *)
Theorem delete_then_get_is_404 :
  forall (today : date) (contact_id : Z) (user : User.t) (d : database) (c : Contact.t),
    run (db.get_db (routes_contacts.get_contact contact_id user)) (connected d)
    = inr (c, connected d) ->
    exists d',
      run (db.get_db (routes_contacts.remove_contact contact_id user)) (connected d)
      = inr (c, connected d')
      /\ handle today user (DELETE_contact contact_id) (connected d) = 204
      /\ handle today user (GET_contact contact_id) (connected d') = 404
      /\ handle today user (DELETE_contact contact_id) (connected d') = 404.
Proof.
  intros today contact_id user d c Hget.
  rewrite run_get_contact_route in Hget.
  destruct (contact_id <? 1) eqn:Hvalid; [discriminate|].
  rewrite run_get_contact_by_id in Hget.
  destruct (first (filter (fun c => (Contact.id c =? contact_id)
              && repository_contacts.owned_by user c) (contacts d))) as [c0|] eqn:Hfirst;
    [|discriminate].
  assert (c0 = c) by congruence. subst c0. clear Hget.
  pose proof (first_filter_Some _ _ _ Hfirst) as [_ Hp].
  apply andb_true_iff in Hp. destruct Hp as [Hid _]. apply Z.eqb_eq in Hid.
  assert (Hgone : first (filter (fun c0 => (Contact.id c0 =? contact_id)
                     && repository_contacts.owned_by user c0)
                   (filter (fun r => negb (Contact.id r =? Contact.id c)) (contacts d)))
                  = None).
  { apply first_filter_None. intros x Hx. apply filter_In in Hx. destruct Hx as [_ Hne].
    rewrite Hid in Hne. apply negb_true_iff in Hne. now rewrite Hne. }
  eexists. split; [|split; [|split]].
  - rewrite run_remove_contact_route, Hvalid, (run_remove_found _ _ _ _ Hfirst).
    reflexivity.
  - unfold handle, serve.
    rewrite run_remove_contact_route, Hvalid, (run_remove_found _ _ _ _ Hfirst).
    reflexivity.
  - unfold handle, serve.
    rewrite run_get_contact_route, Hvalid, run_get_contact_by_id.
    cbn [contacts set_contacts]. rewrite Hgone. reflexivity.
  - unfold handle, serve. rewrite run_remove_contact_route, Hvalid.
    rewrite run_remove_absent by (cbn [contacts set_contacts]; exact Hgone).
    reflexivity.
Qed.

Lemma delete_then_get_is_404_witness :
  run (db.get_db (routes_contacts.get_contact 2 alice)) (connected sample_db)
  = inr (contact_feb05, connected sample_db)
  /\ exists d',
      run (db.get_db (routes_contacts.remove_contact 2 alice)) (connected sample_db)
      = inr (contact_feb05, connected d')
      /\ handle (mkdate 2024 2 1) alice (DELETE_contact 2) (connected sample_db) = 204
      /\ handle (mkdate 2024 2 1) alice (GET_contact 2) (connected d') = 404
      /\ handle (mkdate 2024 2 1) alice (DELETE_contact 2) (connected d') = 404.
Proof.
  split; [reflexivity|].
  apply (delete_then_get_is_404 (mkdate 2024 2 1) 2 alice sample_db contact_feb05).
  reflexivity.
Defined.

(** X18: a contact id below 1 is refused by the path validation of the
    get, update and delete routes with status 422, whatever is stored, also
    when a contact with that id is; update and delete raise the validation
    error before the repository is called. *)
Theorem ids_below_one_are_rejected :
  forall (today : date) (user : User.t) (d : database) (contact_id : Z)
         (body : ContactModel.t),
    contact_id < 1 ->
    handle today user (GET_contact contact_id) (connected d) = 422
    /\ handle today user (PUT_contact body contact_id) (connected d) = 422
    /\ handle today user (DELETE_contact contact_id) (connected d) = 422
    /\ (exists detail,
          run (db.get_db (routes_contacts.update_contact body contact_id user))
              (connected d)
          = inl (RequestValidationError detail))
    /\ (exists detail,
          run (db.get_db (routes_contacts.remove_contact contact_id user)) (connected d)
          = inl (RequestValidationError detail)).
Proof.
  intros today user d contact_id body Hlow.
  assert (Hinvalid : (contact_id <? 1) = true) by now apply Z.ltb_lt.
  unfold handle, serve. rewrite !run_get_db.
  unfold routes_contacts.get_contact, routes_contacts.update_contact,
    routes_contacts.remove_contact, routes_contacts.Path_ge_1.
  rewrite Hinvalid. repeat split; try reflexivity; eexists; reflexivity.
Qed.

Lemma ids_below_one_are_rejected_witness :
  0 < 1
  /\ handle (mkdate 2024 2 1) alice (DELETE_contact 0)
       (connected (mkdb [Contact.mk 0 "Z" "Z" "z@example.com" "0" (mkdate 2000 1 1) 1]
                     0 [alice] 1 PostgreSQL))
     = 422.
Proof.
  split; [lia|].
  destruct (ids_below_one_are_rejected (mkdate 2024 2 1) alice
              (mkdb [Contact.mk 0 "Z" "Z" "z@example.com" "0" (mkdate 2000 1 1) 1]
                 0 [alice] 1 PostgreSQL) 0 sample_body ltac:(lia))
    as (_ & _ & Hdelete & _).
  exact Hdelete.
Defined.

Lemma run_create_contact_route body user d :
  run (db.get_db (routes_contacts.create_contact body user)) (connected d)
  = inr (repository_contacts.new_Contact body user (contacts_id_seq d + 1),
         connected (set_contacts
                      (contacts d
                       ++ [repository_contacts.new_Contact body user
                             (contacts_id_seq d + 1)])
                      (contacts_id_seq d + 1) d)).
Proof. reflexivity. Qed.

(** X19: on a store that satisfies the table invariant and whose id
    sequence is not negative, a POST answers 201 with the created contact;
    a GET of its id by the same user then answers 200 with that contact,
    and a GET of its id by any other user answers 404. *)
Theorem post_then_get :
  forall (today : date) (body : ContactModel.t) (u v : User.t) (d : database),
    contacts_wf d ->
    0 <= contacts_id_seq d ->
    User.id v <> User.id u ->
    exists c d',
      run (db.get_db (routes_contacts.create_contact body u)) (connected d)
      = inr (c, connected d')
      /\ handle today u (POST_contact body) (connected d) = 201
      /\ run (db.get_db (routes_contacts.get_contact (Contact.id c) u)) (connected d')
         = inr (c, connected d')
      /\ handle today u (GET_contact (Contact.id c)) (connected d') = 200
      /\ handle today v (GET_contact (Contact.id c)) (connected d') = 404.
Proof.
  intros today body u v d [Hle _] Hseq Hvu.
  rewrite Forall_forall in Hle.
  assert (Hvalid : (contacts_id_seq d + 1 <? 1) = false) by (apply Z.ltb_ge; lia).
  assert (Hold : forall (w : User.t),
    filter (fun c => (Contact.id c =? contacts_id_seq d + 1)
                     && repository_contacts.owned_by w c) (contacts d) = []).
  { intros w. apply filter_none. intros x Hx. specialize (Hle x Hx). cbn in Hle.
    apply andb_false_iff. left. apply Z.eqb_neq. lia. }
  eexists. eexists. split; [apply run_create_contact_route|].
  split; [reflexivity|].
  cbn [Contact.id repository_contacts.new_Contact].
  assert (Hmine : run (db.get_db (routes_contacts.get_contact (contacts_id_seq d + 1) u))
             (connected (set_contacts
                (contacts d ++ [repository_contacts.new_Contact body u
                                  (contacts_id_seq d + 1)])
                (contacts_id_seq d + 1) d))
           = inr (repository_contacts.new_Contact body u (contacts_id_seq d + 1),
                  connected (set_contacts
                     (contacts d ++ [repository_contacts.new_Contact body u
                                       (contacts_id_seq d + 1)])
                     (contacts_id_seq d + 1) d))).
  { rewrite run_get_contact_route, Hvalid, run_get_contact_by_id.
    cbn [contacts set_contacts]. rewrite filter_app, Hold. cbn.
    unfold repository_contacts.owned_by. cbn. now rewrite !Z.eqb_refl. }
  split; [exact Hmine|]. split.
  - unfold handle, serve. now rewrite Hmine.
  - unfold handle, serve.
    rewrite run_get_contact_route, Hvalid, run_get_contact_by_id.
    cbn [contacts set_contacts]. rewrite filter_app, Hold. cbn.
    unfold repository_contacts.owned_by. cbn. rewrite Z.eqb_refl.
    destruct (Z.eqb_spec (User.id u) (User.id v)); [congruence|reflexivity].
Qed.

Lemma post_then_get_witness :
  contacts_wf sample_db
  /\ 0 <= contacts_id_seq sample_db
  /\ User.id bob <> User.id alice
  /\ exists c d',
      run (db.get_db (routes_contacts.create_contact sample_body alice))
          (connected sample_db)
      = inr (c, connected d')
      /\ handle (mkdate 2024 2 1) alice (POST_contact sample_body) (connected sample_db)
         = 201
      /\ run (db.get_db (routes_contacts.get_contact (Contact.id c) alice)) (connected d')
         = inr (c, connected d')
      /\ handle (mkdate 2024 2 1) alice (GET_contact (Contact.id c)) (connected d') = 200
      /\ handle (mkdate 2024 2 1) bob (GET_contact (Contact.id c)) (connected d') = 404.
Proof.
  assert (Hseq : 0 <= contacts_id_seq sample_db) by (cbn; lia).
  assert (Hne : User.id bob <> User.id alice) by (cbn; lia).
  split; [exact sample_db_wf|]. split; [exact Hseq|]. split; [exact Hne|].
  apply (post_then_get (mkdate 2024 2 1) sample_body alice bob sample_db
           sample_db_wf Hseq Hne).
Defined.

(** ** Update, against what is stored *)


Lemma In_map_replace {A} (key : A -> Z) (x x' : A) rows r :
  In x rows ->
  In r (map (fun y => if key y =? key x then x' else y) rows)
  <-> r = x' \/ (In r rows /\ key r <> key x).
Proof.
  intros Hx. rewrite in_map_iff. split.
  - intros [y [Hy Hin]].
    destruct (Z.eqb_spec (key y) (key x)) as [E|E]; subst r; auto.
  - intros [->|[Hin Hne]].
    + exists x. now rewrite Z.eqb_refl.
    + exists r. split; [|exact Hin].
      destruct (Z.eqb_spec (key r) (key x)); [contradiction|reflexivity].
Qed.



(** ** Confirming an email and setting an avatar, against what is stored *)

Lemma NoDup_map_inj {A B} (f : A -> B) rows x y :
  NoDup (map f rows) -> In x rows -> In y rows -> f x = f y -> x = y.
Proof.
  induction rows as [|r rows IH]; [contradiction|].
  cbn. intros Hnd. inversion Hnd as [|? ? Hnotin Hnd']; subst.
  intros [->|Hx] [->|Hy] E; auto.
  - exfalso. apply Hnotin. rewrite E. now apply in_map.
  - exfalso. apply Hnotin. rewrite <- E. now apply in_map.
Qed.

Lemma first_user_by_email (d : database) (u : User.t) :
  users_wf d ->
  In u (users d) ->
  first (filter (fun r => String.eqb (User.email r) (User.email u)) (users d)) = Some u.
Proof.
  intros [_ Hmail] Hin.
  destruct (first (filter _ (users d))) as [x|] eqn:Hfirst.
  - apply first_filter_Some in Hfirst. destruct Hfirst as [Hx Hp].
    apply String.eqb_eq in Hp. f_equal.
    now apply (NoDup_map_inj User.email (users d)).
  - rewrite first_filter_None in Hfirst. specialize (Hfirst u Hin).
    rewrite String.eqb_refl in Hfirst. discriminate.
Qed.

Lemma map_replace_keeps {B} (g : User.t -> B) (u u' : User.t) rows :
  NoDup (map User.id rows) ->
  In u rows ->
  g u' = g u ->
  map g (map (fun r => if User.id r =? User.id u then u' else r) rows) = map g rows.
Proof.
  intros Hnd Hin Hg. rewrite map_map. apply map_ext_in. intros r Hr.
  destruct (Z.eqb_spec (User.id r) (User.id u)) as [E|E]; [|reflexivity].
  rewrite Hg. f_equal. symmetry. now apply (NoDup_map_inj User.id rows).
Qed.

Lemma users_wf_replace (d : database) (u u' : User.t) :
  users_wf d ->
  In u (users d) ->
  User.id u' = User.id u ->
  User.email u' = User.email u ->
  users_wf (set_users (map (fun r => if User.id r =? User.id u then u' else r) (users d))
              (users_id_seq d) d).
Proof.
  intros [Hid Hmail] Hin Ei Ee. unfold users_wf. cbn [users set_users].
  rewrite (map_replace_keeps User.id u u' (users d) Hid Hin Ei).
  rewrite (map_replace_keeps User.email u u' (users d) Hid Hin Ee).
  now split.
Qed.

(** C10: [confirmed_email] and [update_avatar] use the user found by email
    without testing it.  On a store with unique user ids and emails, when a
    stored user has the email, [confirmed_email] stores that user with the
    confirmed flag set and every other attribute as it was, and
    [update_avatar] stores and returns that user with the avatar URL
    replaced and every other attribute as it was; all other users and the
    contacts stay as they were.  When no stored user has the email, both
    raise [AttributeError] on the attribute assignment. *)
Theorem confirmed_email_update_avatar_need_user :
  forall (email url : string) (d : database),
    users_wf d ->
    (forall u,
        In u (users d) ->
        User.email u = email ->
        let confirmed_u :=
          User.mk (User.id u) (User.username u) (User.email u) (User.password u)
            (User.avatar u) (User.refresh_token u) true in
        let avatar_u :=
          User.mk (User.id u) (User.username u) (User.email u) (User.password u)
            (Some url) (User.refresh_token u) (User.confirmed u) in
        (exists d',
            run (repository_users.confirmed_email email) (connected d)
            = inr (tt, connected d')
            /\ (forall r, In r (users d') <->
                          r = confirmed_u \/ (In r (users d) /\ User.id r <> User.id u))
            /\ run (repository_users.get_user_by_email email) (connected d')
               = inr (Some confirmed_u, connected d')
            /\ users_wf d'
            /\ contacts d' = contacts d)
        /\ (exists d',
               run (repository_users.update_avatar email url) (connected d)
               = inr (avatar_u, connected d')
               /\ (forall r, In r (users d') <->
                             r = avatar_u \/ (In r (users d) /\ User.id r <> User.id u))
               /\ run (repository_users.get_user_by_email email) (connected d')
                  = inr (Some avatar_u, connected d')
               /\ users_wf d'
               /\ contacts d' = contacts d))
    /\ ((forall u, In u (users d) -> User.email u <> email) ->
        (exists msg,
            run (repository_users.confirmed_email email) (connected d)
            = inl (AttributeError msg))
        /\ (exists msg,
               run (repository_users.update_avatar email url) (connected d)
               = inl (AttributeError msg))).
Proof.
  intros email url d Hwf. split.
  - intros u Hin Hmail confirmed_u avatar_u. subst email.
    pose proof (first_user_by_email d u Hwf Hin) as Hfirst.
    pose proof (first_filter_Some _ _ _ Hfirst) as [_ Hp].
    split.
    + eexists. split; [apply (run_confirmed_email_found _ _ _ Hfirst)|].
      split.
      { intros r. cbn [users set_users].
        apply (In_map_replace User.id u confirmed_u (users d) r Hin). }
      split.
      { rewrite run_get_user_by_email. cbn [users set_users]. f_equal. f_equal.
        apply (first_filter_replace User.id _ u confirmed_u);
          [reflexivity | exact Hp | exact Hfirst]. }
      split; [|reflexivity].
      apply (users_wf_replace d u confirmed_u Hwf Hin); reflexivity.
    + eexists. split; [apply (run_update_avatar_found _ url _ _ Hfirst)|].
      split.
      { intros r. cbn [users set_users].
        apply (In_map_replace User.id u avatar_u (users d) r Hin). }
      split.
      { rewrite run_get_user_by_email. cbn [users set_users]. f_equal. f_equal.
        apply (first_filter_replace User.id _ u avatar_u);
          [reflexivity | exact Hp | exact Hfirst]. }
      split; [|reflexivity].
      apply (users_wf_replace d u avatar_u Hwf Hin); reflexivity.
  - intros Hnone.
    assert (Hfirst : first (filter (fun r => String.eqb (User.email r) email) (users d))
                     = None).
    { apply first_filter_None. intros x Hx. apply String.eqb_neq. now apply Hnone. }
    destruct (run_user_absent _ _ Hfirst) as [Hconfirm Havatar].
    split; eexists; [exact Hconfirm | apply Havatar].
Qed.

Lemma sample_db_users_wf : users_wf sample_db.
Proof.
  split; cbn; repeat constructor; cbn; intuition (try discriminate; try lia).
Defined.

Lemma confirmed_email_update_avatar_need_user_witness :
  users_wf sample_db
  /\ In bob (users sample_db)
  /\ (exists d',
        run (repository_users.confirmed_email "bob@example.com") (connected sample_db)
        = inr (tt, connected d')
        /\ run (repository_users.get_user_by_email "bob@example.com") (connected d')
           = inr (Some (User.mk 2 "bob" "bob@example.com" "hash-b" None None true),
                  connected d'))
  /\ (exists d',
        run (repository_users.update_avatar "bob@example.com" "http://img/b.png")
            (connected sample_db)
        = inr (User.mk 2 "bob" "bob@example.com" "hash-b" (Some "http://img/b.png")
                 None false,
               connected d'))
  /\ (exists msg,
        run (repository_users.confirmed_email "nobody@example.com") (connected sample_db)
        = inl (AttributeError msg)).
Proof.
  assert (Hin : In bob (users sample_db)) by (cbn; auto).
  destruct (confirmed_email_update_avatar_need_user "bob@example.com" "http://img/b.png"
              sample_db sample_db_users_wf) as [Hfound _].
  destruct (confirmed_email_update_avatar_need_user "nobody@example.com" "x"
              sample_db sample_db_users_wf) as [_ Habsent].
  destruct (Hfound bob Hin eq_refl) as [Hconfirm Havatar].
  split; [exact sample_db_users_wf|]. split; [exact Hin|]. split; [|split].
  - destruct Hconfirm as (d' & Hrun & _ & Hget & _). exists d'. split; assumption.
  - destruct Havatar as (d' & Hrun & _). exists d'. exact Hrun.
  - apply Habsent. intros u Hu. cbn in Hu.
    destruct Hu as [<-|[<-|[]]]; cbn; discriminate.
Defined.
